(** * The AT channel of attentive (FreeRTOS port), embedded in Rocq

    This development follows [at-freertos.c] (the channel coordinator and the
    command facade built on it) and [attentive/at.h].  The channel talks to
    three things that are not part of that file: the AT parser, the UART
    driver and the FreeRTOS kernel.  Calls into them are recorded, in program
    order, in a trace; what they answer (how many bytes a write accepted,
    what the reader task did while the caller was blocked) is supplied by
    oracles.  Everything else is ordinary state passing over the fields of
    [struct at_freertos]. *)

From Stdlib Require Import ZArith String Ascii Lia Bool.
From stdpp Require Import base list.

Local Open Scope Z_scope.

(** ** Machine integers and C strings *)

(** [int] is 32 bits wide on the targets of this port; arithmetic that can
    leave the range is written with its wrap-around. *)
Definition INT_MAX : Z := 2 ^ 31 - 1.
Definition int_wrap (z : Z) : Z := (z + 2 ^ 31) mod 2 ^ 32 - 2 ^ 31.

(** A [char] is a [Z]: in [-128, 127] where [char] is signed, in [0, 255]
    where it is unsigned.  Buffers are lists of chars. *)
Definition is_char (c : Z) : Prop := -128 <= c <= 255.

(** The characters of a string literal, without the terminating NUL. *)
Definition cstr (s : string) : list Z :=
  map (fun a => Z.of_nat (nat_of_ascii a)) (list_ascii_of_string s).

(** [strlen]: the chars before the first NUL.  A list that ends without a
    NUL stands for a string whose terminator follows it. *)
Fixpoint strlen (s : list Z) : nat :=
  match s with
  | [] => O
  | c :: s' => if c =? 0 then O else S (strlen s')
  end.

(** [strncmp s1 s2 n], as the C library defines it: compare at most [n]
    chars as [unsigned char], stop after a common NUL. *)
Fixpoint strncmp (s1 s2 : list Z) (n : nat) : Z :=
  match n with
  | O => 0
  | S n' =>
      let c1 := hd 0 s1 mod 256 in
      let c2 := hd 0 s2 mod 256 in
      if c1 =? c2
      then if c1 =? 0 then 0 else strncmp (tl s1) (tl s2) n'
      else c1 - c2
  end.

(** [memcpy dst src n] for [n] within both buffers: the first [n] chars of
    [dst] are replaced by those of [src]. *)
Definition memcpy (dst src : list Z) (n : nat) : list Z :=
  take n src ++ drop n dst.

(** ** Data model *)

(** Modelled from the spec: [enum at_response_type] is declared in
    [attentive/parser.h], which is not among the sources.  A classification
    is an [int]; [Unknown] ("no decision; try the next scanner") is the
    value that [scan_line] tests with [!type], zero. *)
Definition at_response_type : Type := Z.
Definition AT_RESPONSE_UNKNOWN : at_response_type := 0.

(** [at_line_scanner_t]: a scanner sees the line and its length. *)
Definition at_line_scanner_t : Type := list Z -> nat -> at_response_type.

(** [struct at_callbacks]; only the scanner matters to the channel code
    below, the URC handler is called by [handle_urc] alone. *)
Record at_callbacks : Type := mk_callbacks {
  cb_scan_line : option at_line_scanner_t
}.

(** [struct at], the public part of a channel.  The parser it points to is
    an external object: the calls made on it appear in the trace. *)
Record at_chan : Type := mk_at {
  cbs : option at_callbacks;
  command_scanner : option at_line_scanner_t
}.

(** [struct at_freertos]. *)
Record at_freertos : Type := mk_priv {
  at_pub : at_chan;
  timeout : Z;
  delay : Z;
  response : list Z;
  xSem : bool;          (* the binary semaphore: true when given *)
  xUART : bool;         (* true when the pointer is not NULL *)
  running : bool;
  open : bool;
  busy : bool;
  waiting : bool
}.

Definition AT_COMMAND_LENGTH : Z := 80.

(** What the channel asks of the parser, the driver and the kernel. *)
Inductive event : Type :=
  | EvTaskDelay (ticks : Z)
  | EvParserAwaitResponse
  | EvParserShowResidual
  | EvParserReset
  | EvUartInit
  | EvUartDeinit
  | EvUartWrite (data : list Z).

(** What other tasks do to the channel while the caller is blocked: the
    reader task's parser completes a response ([handle_response] runs), or
    somebody calls [at_close]. *)
Inductive env_event : Type :=
  | EnvResponse (buf : list Z)
  | EnvClose.

(** The channel together with its surroundings: the trace of external
    calls so far (oldest first), and how many UART writes and how many
    timed waits have been made, which index the oracles. *)
Record world : Type := mk_world {
  priv : at_freertos;
  trace : list event;
  writes : nat;
  waits : nat
}.

(** A pointer result of [at_command]: NULL, or [priv->response]. *)
Inductive cptr : Type :=
  | NULL
  | RESPONSE.

(** Field updates. *)
Definition set_command_scanner (s : option at_line_scanner_t) (p : at_freertos) : at_freertos :=
  mk_priv (mk_at (cbs (at_pub p)) s) (timeout p) (delay p) (response p)
          (xSem p) (xUART p) (running p) (open p) (busy p) (waiting p).

Definition set_cbs (c : option at_callbacks) (p : at_freertos) : at_freertos :=
  mk_priv (mk_at c (command_scanner (at_pub p))) (timeout p) (delay p) (response p)
          (xSem p) (xUART p) (running p) (open p) (busy p) (waiting p).

Definition set_timeout (t : Z) (p : at_freertos) : at_freertos :=
  mk_priv (at_pub p) t (delay p) (response p)
          (xSem p) (xUART p) (running p) (open p) (busy p) (waiting p).

Definition set_delay (d : Z) (p : at_freertos) : at_freertos :=
  mk_priv (at_pub p) (timeout p) d (response p)
          (xSem p) (xUART p) (running p) (open p) (busy p) (waiting p).

Definition set_response (r : list Z) (p : at_freertos) : at_freertos :=
  mk_priv (at_pub p) (timeout p) (delay p) r
          (xSem p) (xUART p) (running p) (open p) (busy p) (waiting p).

Definition set_xSem (b : bool) (p : at_freertos) : at_freertos :=
  mk_priv (at_pub p) (timeout p) (delay p) (response p)
          b (xUART p) (running p) (open p) (busy p) (waiting p).

Definition set_xUART (b : bool) (p : at_freertos) : at_freertos :=
  mk_priv (at_pub p) (timeout p) (delay p) (response p)
          (xSem p) b (running p) (open p) (busy p) (waiting p).

Definition set_open (b : bool) (p : at_freertos) : at_freertos :=
  mk_priv (at_pub p) (timeout p) (delay p) (response p)
          (xSem p) (xUART p) (running p) b (busy p) (waiting p).

Definition set_waiting (b : bool) (p : at_freertos) : at_freertos :=
  mk_priv (at_pub p) (timeout p) (delay p) (response p)
          (xSem p) (xUART p) (running p) (open p) (busy p) b.

Definition on_priv (f : at_freertos -> at_freertos) (w : world) : world :=
  mk_world (f (priv w)) (trace w) (writes w) (waits w).

Definition emit (e : event) (w : world) : world :=
  mk_world (priv w) (trace w ++ [e]) (writes w) (waits w).

Definition char_of (a : ascii) : Z := Z.of_nat (nat_of_ascii a).

(** [size_t] is 32 bits wide as well; an [int] compared or combined with a
    [size_t] is first converted to it. *)
Definition size_t_wrap (z : Z) : Z := z mod 2 ^ 32.

(** What [%s] prints: the chars before the first NUL. *)
Definition fmt_s (s : list Z) : list Z := take (strlen s) s.

(** ** The channel *)

Section Channel.

(** [AT_BUF_SIZE] comes from [attentive/parser.h] and [pdMS_TO_TICKS]
    from the FreeRTOS configuration; neither is fixed here. *)
Variable AT_BUF_SIZE : nat.
Variable pdMS_TO_TICKS : Z -> Z.

(** The oracles.  [uart_accepts k data] is what the driver's [write]
    returns for the [k]-th write of the run when asked to send [data];
    [reader k] lists what the other tasks do during the [k]-th timed
    wait on the semaphore.  The other tasks are observed there and only
    there: it is the one place where the caller synchronises with them,
    and what they might do between two statements of the caller is not
    modelled. *)
Variable uart_accepts : nat -> list Z -> Z.
Variable reader : nat -> list env_event.

(** *** Parser callbacks *)

Definition handle_response (buf : list Z) (len : nat) (p : at_freertos) : at_freertos :=
  let len := if (len <? AT_BUF_SIZE - 1)%nat then len else (AT_BUF_SIZE - 1)%nat in
  let p := set_response (memcpy (response p) buf len) p in
  let p := set_response (<[len := 0]> (response p)) p in
  let p := set_waiting false p in
  set_xSem true p.

(** Which scanners a call of [scan_line] consulted, in order. *)
Inductive scanner_id : Type :=
  | CommandScanner
  | DefaultScanner.

Definition scan_line (a : at_chan) (line : list Z) (len : nat)
  : list scanner_id * at_response_type :=
  let type := AT_RESPONSE_UNKNOWN in
  let '(asked, type) :=
    match command_scanner a with
    | Some scanner => ([CommandScanner], scanner line len)
    | None => ([], type)
    end in
  if type =? 0
  then match cbs a with
       | Some c =>
           match cb_scan_line c with
           | Some scanner => (asked ++ [DefaultScanner], scanner line len)
           | None => (asked, type)
           end
       | None => (asked, type)
       end
  else (asked, type).

(** *** Life cycle and settings *)

(** [memset(priv, 0, ...)], then [running = true]. *)
Definition at_alloc_freertos : world :=
  mk_world (mk_priv (mk_at None None) 0 0 (replicate AT_BUF_SIZE 0)
                    false false true false false false)
           [] O O.

(** [uart] tells whether [hal_uart_get_instance] found the device. *)
Definition at_open (uart : bool) (w : world) : Z * world :=
  if negb uart then (-1, on_priv (set_xUART false) w)
  else
    let w := on_priv (set_xUART true) w in
    let w := emit EvUartInit w in
    let w := on_priv (set_open true) w in
    let w := on_priv (set_xSem false) w in      (* xSemaphoreTake(xSem, 0) *)
    (0, w).

(** Called on a channel whose UART pointer is valid. *)
Definition at_close (w : world) : Z * world :=
  let w := on_priv (set_open false) w in
  let w := emit EvUartDeinit w in
  let w := on_priv (set_xUART false) w in
  (0, w).

Definition at_set_callbacks (c : option at_callbacks) (w : world) : world :=
  on_priv (set_cbs c) w.

Definition at_set_command_scanner (scanner : option at_line_scanner_t) (w : world) : world :=
  on_priv (set_command_scanner scanner) w.

Definition at_set_timeout (t : Z) (w : world) : world :=
  on_priv (set_timeout t) w.

Definition at_set_delay (d : Z) (w : world) : world :=
  on_priv (set_delay (pdMS_TO_TICKS d + 1)) w.

(** *** Kernel and driver calls *)

Definition vTaskDelay (ticks : Z) (w : world) : world := emit (EvTaskDelay ticks) w.

(** [ops->write(xUART, data, size)]: the request is logged, the oracle
    says how much was accepted. *)
Definition uart_write (data : list Z) (w : world) : Z * world :=
  (uart_accepts (writes w) data,
   mk_world (priv w) (trace w ++ [EvUartWrite data]) (S (writes w)) (waits w)).

Definition env_step (w : world) (e : env_event) : world :=
  match e with
  | EnvResponse buf => on_priv (handle_response buf (length buf)) w
  | EnvClose => snd (at_close w)
  end.

(** [xSemaphoreTake(xSem, 0)]. *)
Definition xSemaphoreTake_poll (w : world) : bool * world :=
  (xSem (priv w), on_priv (set_xSem false) w).

(** [xSemaphoreTake(xSem, pdMS_TO_TICKS(1000))]: if the semaphore is not
    available the caller sleeps and the other tasks run. *)
Definition xSemaphoreTake_wait (w : world) : bool * world :=
  if xSem (priv w) then (true, on_priv (set_xSem false) w)
  else
    let w := fold_left env_step (reader (waits w))
               (mk_world (priv w) (trace w) (writes w) (S (waits w))) in
    (xSem (priv w), on_priv (set_xSem false) w).

(** *** Commands *)

(** The loop [while (timeout-- && priv->open && priv->waiting)
    { if (xSemaphoreTake(...)) break; }].  [n] is the number of times
    [timeout--] still reads non-zero. *)
Fixpoint wait_loop (n : nat) (w : world) : world :=
  match n with
  | O => w
  | S n' =>
      if open (priv w) && waiting (priv w)
      then let '(taken, w) := xSemaphoreTake_wait w in
           if taken then w else wait_loop n' w
      else w
  end.

(** An [int] counting down with wrap-around reads non-zero
    [timeout mod 2^32] times; for [timeout >= 0] this is [timeout]. *)
Definition slices (timeout : Z) : nat := Z.to_nat (size_t_wrap timeout).

Definition _at_command (w : world) (data : list Z) : cptr * world :=
  if negb (open (priv w)) then (NULL, w)
  else
    let w := if delay (priv w) =? 0 then w else vTaskDelay (delay (priv w)) w in
    let w := emit EvParserAwaitResponse w in
    let '(_, w) := uart_write data w in
    let w := on_priv (set_waiting true) w in
    let '(_, w) := xSemaphoreTake_poll w in
    let w := wait_loop (slices (timeout (priv w))) w in
    let '(result, w) :=
      if negb (open (priv w)) then (NULL, w)
      else if waiting (priv w)
           then (NULL, emit EvParserReset (emit EvParserShowResidual w))
           else (RESPONSE, w) in
    (result, on_priv (set_command_scanner None) w).

(** [text] is the expansion of the format.  [vsnprintf] returns its
    length, whatever part of it fitted the buffer (expansions too long
    for an [int] are left out of the model). *)
Definition at_command (w : world) (text : list Z) : cptr * world :=
  let len := Z.of_nat (length text) in
  if len >=? AT_COMMAND_LENGTH - 1 then (NULL, w)
  else _at_command w (text ++ [char_of "013"]).

Definition at_command_raw (w : world) (data : list Z) : cptr * world :=
  _at_command w data.

(** *** One-way sends *)

Definition _at_send (w : world) (data : list Z) : bool * world :=
  if negb (open (priv w)) then (false, w)
  else let '(n, w) := uart_write data w in
       (n =? Z.of_nat (length data), w).

Definition at_send (w : world) (text : list Z) : bool * world :=
  let len := Z.of_nat (length text) in
  if len >=? AT_COMMAND_LENGTH - 1 then (false, w)
  else _at_send w text.

Definition at_send_raw (w : world) (data : list Z) : bool * world :=
  _at_send w data.

Definition byte_to_hex (byte : Z) : list Z :=
  let h := Z.land byte 15 in
  let hex1 := if h <? 10 then char_of "0" + h else char_of "A" + h - 10 in
  let h := Z.land (Z.shiftr byte 4) 15 in
  let hex0 := if h <? 10 then char_of "0" + h else char_of "A" + h - 10 in
  [hex0; hex1].

(** The [while (oset < size)] loop of [at_send_hex].  Every round moves
    [oset] forward, so [fuel] rounds with [fuel >= size] are enough; the
    loop condition is tested before fuel is looked at. *)
Fixpoint send_hex_loop (fuel : nat) (data : list Z) (size oset : Z) (w : world)
  : option (bool * world) :=
  if size_t_wrap oset <? size
  then match fuel with
       | O => None
       | S fuel' =>
           let len := AT_COMMAND_LENGTH / 2 in
           let len := if size_t_wrap (size - oset) >? size_t_wrap len
                      then len else int_wrap (size_t_wrap (size - oset)) in
           let line := flat_map byte_to_hex
                         (take (Z.to_nat len) (drop (Z.to_nat oset) data)) in
           let oset := int_wrap (oset + len) in
           let '(sent, w) := _at_send w line in
           if negb sent then Some (false, w)
           else send_hex_loop fuel' data size oset w
       end
  else Some (true, w).

Definition at_send_hex (w : world) (data : list Z) : option (bool * world) :=
  send_hex_loop (length data) data (Z.of_nat (length data)) 0 w.

(** *** Option probing *)

(** The [for (int i = 0; i < attempts; i++)] loop of [at_config]; [n] is
    the number of rounds left. *)
Fixpoint config_loop (n : nat) (option value : list Z) (w : world) : Z * world :=
  match n with
  | O => (0, w)
  | S n' =>
      let '(resp, w) := at_command w (cstr "AT+" ++ fmt_s option ++ cstr "?") in
      match resp with
      | NULL => (-2, w)
      | RESPONSE =>
          let expected := cstr "+" ++ fmt_s option ++ cstr ": " ++ fmt_s value in
          if Z.of_nat (length expected) >=? 32 then (-1, w)
          else if strncmp (response (priv w)) expected (strlen expected) =? 0
               then (0, w)
               else
                 let '(_, w) := at_command w
                   (cstr "AT+" ++ fmt_s option ++ cstr "=" ++ fmt_s value) in
                 let w := vTaskDelay (pdMS_TO_TICKS 1000) w in
                 config_loop n' option value w
      end
  end.

Definition at_config (w : world) (option value : list Z) (attempts : Z) : Z * world :=
  config_loop (Z.to_nat attempts) option value w.

End Channel.

(** ** Specification-level notions *)

(** The bytes handed to the UART by the write calls of a trace, in order. *)
Definition tx (t : list event) : list (list Z) :=
  omap (fun e => match e with EvUartWrite d => Some d | _ => None end) t.

(** The calls made on the parser in a trace. *)
Definition is_parser_call (e : event) : bool :=
  match e with
  | EvParserAwaitResponse | EvParserShowResidual | EvParserReset => true
  | _ => false
  end.

(** A buffer of capacity [cap] holds a NUL inside its bounds. *)
Definition nul_terminated (cap : nat) (buf : list Z) : Prop :=
  length buf = cap /\ exists k, (k < cap)%nat /\ buf !! k = Some 0.

(** The scanners a channel has installed, per-command scanner first. *)
Definition installed_scanners (a : at_chan) : list (scanner_id * at_line_scanner_t) :=
  match command_scanner a with
  | Some f => [(CommandScanner, f)]
  | None => []
  end ++
  match cbs a with
  | Some c => match cb_scan_line c with
              | Some g => [(DefaultScanner, g)]
              | None => []
              end
  | None => []
  end.

(** The classifier as the specification words it: ask the scanners in
    order, the first answer other than [Unknown] wins. *)
Fixpoint scan_line_spec (ss : list (scanner_id * at_line_scanner_t))
  (line : list Z) (len : nat) : list scanner_id * at_response_type :=
  match ss with
  | [] => ([], AT_RESPONSE_UNKNOWN)
  | (id, f) :: ss' =>
      if f line len =? AT_RESPONSE_UNKNOWN
      then let '(ids, r) := scan_line_spec ss' line len in (id :: ids, r)
      else ([id], f line len)
  end.

(** Hexadecimal text of a byte string as the specification words it: two
    characters per byte out of [0-9A-F], high nibble first. *)
Definition hex_digits : list Z := cstr "0123456789ABCDEF".



(** [s] cut into pieces of [n] elements, the last one possibly shorter.
    [fuel] bounds the number of pieces. *)
Fixpoint chunks_fuel {A} (fuel n : nat) (s : list A) : list (list A) :=
  match fuel, s with
  | _, [] => []
  | O, _ => []
  | S fuel', _ => take n s :: chunks_fuel fuel' n (drop n s)
  end.

Definition chunks {A} (n : nat) (s : list A) : list (list A) :=
  chunks_fuel (length s) n s.

(** What the other tasks and the wait itself leave alone: the bytes
    written, the calls made on the parser, the public part of the channel
    and the number of writes. *)
Definition frame (w w' : world) : Prop :=
  tx (trace w') = tx (trace w) /\
  filter is_parser_call (trace w') = filter is_parser_call (trace w) /\
  at_pub (priv w') = at_pub (priv w) /\
  timeout (priv w') = timeout (priv w) /\
  writes w' = writes w.

(** The waiter's view of the response buffer: either no response has been
    delivered since [waiting] was set, or the buffer holds a NUL. *)
Definition delivered_or_waiting (cap : nat) (w : world) : Prop :=
  length (response (priv w)) = cap /\
  (waiting (priv w) = true \/
   exists k, (k < cap)%nat /\ response (priv w) !! k = Some 0).

(** The [vTaskDelay] a command starts with, when a delay is configured. *)
Definition delay_events (w : world) : list event :=
  if delay (priv w) =? 0 then [] else [EvTaskDelay (delay (priv w))].

(** The world of an accepted command at the moment the waiter enters its
    loop: the parser armed, [data] written, [waiting] set, the semaphore
    cleared. *)
Definition armed (w : world) (data : list Z) : world :=
  mk_world (set_xSem false (set_waiting true (priv w)))
           (trace w ++ delay_events w ++ [EvParserAwaitResponse; EvUartWrite data])
           (S (writes w)) (waits w).

(** What a command does once the loop is left. *)
Definition conclude (w : world) : cptr * world :=
  let '(result, w) :=
    if negb (open (priv w)) then (NULL, w)
    else if waiting (priv w)
         then (NULL, emit EvParserReset (emit EvParserShowResidual w))
         else (RESPONSE, w) in
  (result, on_priv (set_command_scanner None) w).

(** The outcome of a command that timed out: NULL, the parser reset after
    the write, the per-command scanner cleared. *)
Definition timed_out (w : world) (data : list Z) (res : cptr * world) : Prop :=
  fst res = NULL /\
  trace (snd res) =
    trace w ++ delay_events w ++
    [EvParserAwaitResponse; EvUartWrite data; EvParserShowResidual; EvParserReset] /\
  command_scanner (at_pub (priv (snd res))) = None.


Definition CR : Z := char_of "013".

(** Writing [lines] one after the other, giving up at the first write the
    driver does not accept in full. *)
Fixpoint send_lines (uart_accepts : nat -> list Z -> Z) (lines : list (list Z))
  (w : world) : bool * world :=
  match lines with
  | [] => (true, w)
  | l :: ls =>
      let '(n, w1) := uart_write uart_accepts l w in
      if n =? Z.of_nat (length l) then send_lines uart_accepts ls w1 else (false, w1)
  end.

(** The driver takes the [i]-th write after [w] in full. *)
Definition accepted (uart_accepts : nat -> list Z -> Z) (w : world) (i : nat)
  (line : list Z) : Prop :=
  uart_accepts (writes w + i)%nat line = Z.of_nat (length line).

(** ** Sample channels *)

Definition ticks_1kHz (ms : Z) : Z := ms.

Definition uart_takes_all : nat -> list Z -> Z := fun _ d => Z.of_nat (length d).

Definition reader_silent : nat -> list env_event := fun _ => [].
Definition reader_answers (r : list Z) : nat -> list env_event := fun _ => [EnvResponse r].

Definition closed_channel : world := at_alloc_freertos 16.

Definition open_channel : world :=
  at_set_timeout 2 (snd (at_open true (at_alloc_freertos 16))).

Definition any_line (line : list Z) (len : nat) : at_response_type := 4.

(** ** Further notions *)

(** [strcmp], as the C library defines it, on the same reading of lists as
    [strlen]: a list that ends without a NUL is followed by one. *)
Fixpoint strcmp (s1 s2 : list Z) : Z :=
  match s1 with
  | [] => 0 - hd 0 s2 mod 256
  | c :: s1' =>
      let c1 := c mod 256 in
      let c2 := hd 0 s2 mod 256 in
      if c1 =? c2
      then if c1 =? 0 then 0 else strcmp s1' (tl s2)
      else c1 - c2
  end.

(** Reading hexadecimal text back: the value of a digit out of [0-9A-F],
    and the bytes of a text of such digits, two digits per byte. *)
Definition hex_value (c : Z) : Z :=
  if (char_of "0" <=? c) && (c <=? char_of "9")
  then c - char_of "0"
  else c - char_of "A" + 10.

Fixpoint hex_decode_spec (s : list Z) : list Z :=
  match s with
  | h :: l :: s' => (16 * hex_value h + hex_value l) :: hex_decode_spec s'
  | _ => []
  end.

(** What a call added to the trace of [w]. *)
Definition new_tx (w w' : world) : list (list Z) :=
  drop (length (tx (trace w))) (tx (trace w')).

Definition parser_calls (w : world) : list event :=
  filter is_parser_call (trace w).

(** From [w] to [w'] at most [k] writes were made on the UART. *)
Definition sends_at_most (k : nat) (w w' : world) : Prop :=
  exists sent, tx (trace w') = tx (trace w) ++ sent /\ (length sent <= k)%nat.

(** ** Clients of the channel *)

(** The macro [at_command_simple] of [at.h] and the parts of the M6315
    driver ([at-m6315.c]) that touch nothing but the channel.  The macro
    leaves the calling function with -2 or -1, or lets it go on: the
    result is [Some] of the value returned, or [None]. *)

Definition AT_TIMEOUT_SHORT : Z := 2.
Definition AT_TIMEOUT_LONG : Z := 10.
Definition M6315_AUTOBAUD_ATTEMPTS : Z := 10.
Definition M6315_CONFIG_RETRIES : Z := 10.
Definition M6315_QIDEACT_TIMEOUT : Z := 40 + 10.

Section Clients.

Variable AT_BUF_SIZE : nat.
Variable pdMS_TO_TICKS : Z -> Z.
Variable uart_accepts : nat -> list Z -> Z.
Variable reader : nat -> list env_event.

(** The enumerator [AT_RESPONSE_FINAL_OK] of [attentive/parser.h], and the
    driver's line scanner, which is built on a table search of the parser;
    neither is among the sources. *)
Variable AT_RESPONSE_FINAL_OK : at_response_type.
Variable m6315_scan_line : at_line_scanner_t.

Definition at_command_simple (w : world) (text : list Z) : option Z * world :=
  let '(_response, w) := at_command AT_BUF_SIZE uart_accepts reader w text in
  match _response with
  | NULL => (Some (-2), w)
  | RESPONSE =>
      if strcmp (response (priv w)) (cstr "") =? 0 then (None, w)
      else (Some (-1), w)
  end.

Definition scanner_qideact (line : list Z) (len : nat) : at_response_type :=
  if strcmp line (cstr "DEACT OK") =? 0 then AT_RESPONSE_FINAL_OK
  else AT_RESPONSE_UNKNOWN.

Definition scanner_shutdown (line : list Z) (len : nat) : at_response_type :=
  if strcmp line (cstr "NORMAL POWER DOWN") =? 0 then AT_RESPONSE_FINAL_OK
  else AT_RESPONSE_UNKNOWN.

Definition m6315_callbacks : at_callbacks := mk_callbacks (Some m6315_scan_line).

Definition m6315_detach (w : world) : Z * world :=
  (0, at_set_callbacks None w).

Definition m6315_pdp_close (w : world) : Z * world :=
  let w := at_set_timeout M6315_QIDEACT_TIMEOUT w in
  let w := at_set_command_scanner (Some scanner_qideact) w in
  match at_command_simple w (cstr "AT+QIDEACT") with
  | (Some r, w) => (r, w)
  | (None, w) => (0, w)
  end.

Definition m6315_shutdown (w : world) : Z * world :=
  let w := at_set_timeout AT_TIMEOUT_SHORT w in
  match at_command_simple w (cstr "AT") with
  | (Some r, w) => (r, w)
  | (None, w) =>
      let w := at_set_timeout AT_TIMEOUT_LONG w in
      let w := at_set_command_scanner (Some scanner_shutdown) w in
      match at_command_simple w (cstr "AT+QPOWD=1") with
      | (Some r, w) => (r, w)
      | (None, w) => (0, w)
      end
  end.

(** The autobauding loop of [m6315_attach]: up to [n] probes, left at the
    first one that is answered. *)
Fixpoint m6315_autobaud (n : nat) (w : world) : world :=
  match n with
  | O => w
  | S n' =>
      let '(resp, w) := at_command AT_BUF_SIZE uart_accepts reader w (cstr "AT") in
      match resp with
      | RESPONSE => w
      | NULL => m6315_autobaud n' w
      end
  end.

(** Its last loop, "enable full functionality", and the [return 0] that
    follows it. *)
Fixpoint m6315_cfun (n : nat) (w : world) : Z * world :=
  match n with
  | O => (0, w)
  | S n' =>
      let '(resp, w) := at_command AT_BUF_SIZE uart_accepts reader w (cstr "AT+CFUN=1") in
      match resp with
      | NULL => (-2, w)
      | RESPONSE =>
          if hd 0 (response (priv w)) =? 0 then (0, w)
          else m6315_cfun n' (vTaskDelay (pdMS_TO_TICKS 1000) w)
      end
  end.

Definition m6315_attach (w : world) : Z * world :=
  let w := at_set_callbacks (Some m6315_callbacks) w in
  let w := at_set_timeout AT_TIMEOUT_SHORT w in
  let w := m6315_autobaud (Z.to_nat M6315_AUTOBAUD_ATTEMPTS) w in
  let '(_, w) := at_command AT_BUF_SIZE uart_accepts reader w (cstr "ATE0") in
  let '(_, w) := at_command AT_BUF_SIZE uart_accepts reader w (cstr "ATE0") in
  let w := vTaskDelay (pdMS_TO_TICKS 2000) w in
  let '(_, w) := at_command AT_BUF_SIZE uart_accepts reader w (cstr "AT+CGMM") in
  let '(_, w) := at_command AT_BUF_SIZE uart_accepts reader w (cstr "AT+CGMR") in
  let '(_, w) := at_command AT_BUF_SIZE uart_accepts reader w (fmt_s (cstr "AT+CMEE=2")) in
  let '(_, w) := at_command AT_BUF_SIZE uart_accepts reader w (fmt_s (cstr "AT+QIURC=0")) in
  let w := at_set_timeout AT_TIMEOUT_LONG w in
  m6315_cfun (Z.to_nat M6315_CONFIG_RETRIES) w.

End Clients.

(** ** Basic facts *)

Lemma int_wrap_id z : - 2 ^ 31 <= z <= INT_MAX -> int_wrap z = z.
Proof.
  unfold int_wrap, INT_MAX. intros H.
  rewrite Z.mod_small; lia.
Qed.

Lemma size_t_wrap_id z : 0 <= z < 2 ^ 32 -> size_t_wrap z = z.
Proof. unfold size_t_wrap. intros H. apply Z.mod_small. lia. Qed.

Lemma tx_app t1 t2 : tx (t1 ++ t2) = tx t1 ++ tx t2.
Proof. unfold tx. apply omap_app. Qed.

(** ** Rejection on a closed port *)

Section ClosedPort.

Context (AT_BUF_SIZE : nat).
Context (uart_accepts : nat -> list Z -> Z) (reader : nat -> list env_event).

#[local] Abbreviation _at_command := (_at_command AT_BUF_SIZE uart_accepts reader).
#[local] Abbreviation at_command := (at_command AT_BUF_SIZE uart_accepts reader).
#[local] Abbreviation at_command_raw := (at_command_raw AT_BUF_SIZE uart_accepts reader).

Lemma _at_command_closed w data :
  open (priv w) = false -> _at_command w data = (NULL, w).
Proof. intros Hc. unfold _at_command. now rewrite Hc. Qed.

Lemma commands_closed w text data :
  open (priv w) = false ->
  at_command w text = (NULL, w) /\ at_command_raw w data = (NULL, w).
Proof.
  intros Hc. split.
  - unfold at_command. destruct (_ >=? _); [reflexivity|].
    now apply _at_command_closed.
  - now apply _at_command_closed.
Qed.

(** C4.  A command issued while the port is not open returns NULL and
    leaves the world as it was: the trace gains no event, so nothing is
    written to the UART and no call is made on the parser. *)
Theorem closed_port_rejects_command w text data :
  open (priv w) = false ->
  (at_command w text = (NULL, w) /\ at_command_raw w data = (NULL, w)) /\
  (forall r w',
      at_command w text = (r, w') \/ at_command_raw w data = (r, w') ->
      r = NULL /\ tx (trace w') = tx (trace w) /\
      filter is_parser_call (trace w') = filter is_parser_call (trace w)).
Proof.
  intros Hc.
  destruct (commands_closed w text data Hc) as [Hcmd Hraw].
  split; [now split|].
  intros r w' [H|H]; rewrite ?Hcmd, ?Hraw in H; inversion H; subst; auto.
Qed.

End ClosedPort.

Lemma closed_port_rejects_command_witness :
  open (priv closed_channel) = false /\
  at_command 16 uart_takes_all reader_silent closed_channel (cstr "AT") = (NULL, closed_channel).
Proof.
  split; [reflexivity|].
  apply (closed_port_rejects_command 16 uart_takes_all reader_silent
           closed_channel (cstr "AT") []).
  reflexivity.
Defined.

(** ** Line classification *)

Lemma scan_line_spec_unknown ss line len :
  snd (scan_line_spec ss line len) = AT_RESPONSE_UNKNOWN <->
  Forall (fun s => snd s line len = AT_RESPONSE_UNKNOWN) ss.
Proof.
  induction ss as [|[id f] ss IH]; simpl.
  - split; [constructor | reflexivity].
  - destruct (f line len =? AT_RESPONSE_UNKNOWN) eqn:E.
    + apply Z.eqb_eq in E.
      destruct (scan_line_spec ss line len) as [ids r]; simpl in *.
      rewrite IH. split.
      * intros H. now constructor.
      * intros H. now inversion H.
    + apply Z.eqb_neq in E. simpl. split.
      * intros H. contradiction.
      * intros H. inversion H; subst. contradiction.
Qed.

(** C5.  [scan_line] asks the per-command scanner first and the default
    scanner second, skipping the ones that are not installed, and stops at
    the first answer other than [Unknown], which is its result; the result
    is [Unknown] exactly when every installed scanner said [Unknown]. *)
Theorem scan_line_first_non_unknown (a : at_chan) (line : list Z) (len : nat) :
  scan_line a line len = scan_line_spec (installed_scanners a) line len /\
  (snd (scan_line a line len) = AT_RESPONSE_UNKNOWN <->
   Forall (fun s => snd s line len = AT_RESPONSE_UNKNOWN) (installed_scanners a)).
Proof.
  assert (H : scan_line a line len = scan_line_spec (installed_scanners a) line len).
  { unfold scan_line, installed_scanners, AT_RESPONSE_UNKNOWN.
    destruct (command_scanner a) as [f|]; simpl.
    - unfold AT_RESPONSE_UNKNOWN.
      destruct (f line len =? 0) eqn:E; [|reflexivity].
      destruct (cbs a) as [[[g|]]|]; simpl; unfold AT_RESPONSE_UNKNOWN.
      + destruct (g line len =? 0) eqn:E'; [|reflexivity].
        apply Z.eqb_eq in E'. now rewrite E'.
      + apply Z.eqb_eq in E. now rewrite E.
      + apply Z.eqb_eq in E. now rewrite E.
    - destruct (cbs a) as [[[g|]]|]; simpl; unfold AT_RESPONSE_UNKNOWN; try reflexivity.
      destruct (g line len =? 0) eqn:E'; [|reflexivity].
      apply Z.eqb_eq in E'. now rewrite E'. }
  split; [exact H|].
  rewrite H. apply scan_line_spec_unknown.
Qed.

(** ** Delivery of a response *)

Lemma handle_response_buffer (AT_BUF_SIZE : nat) (buf : list Z) (len : nat) (p : at_freertos) :
  let n := Nat.min len (AT_BUF_SIZE - 1) in
  response (handle_response AT_BUF_SIZE buf len p) = <[n := 0]> (memcpy (response p) buf n).
Proof.
  intros n.
  assert (Hn : (if (len <? AT_BUF_SIZE - 1)%nat then len else (AT_BUF_SIZE - 1)%nat) = n).
  { unfold n. destruct (Nat.ltb_spec len (AT_BUF_SIZE - 1)); lia. }
  unfold handle_response. rewrite Hn. reflexivity.
Qed.

Lemma memcpy_length (dst src : list Z) (n : nat) :
  (n <= length dst)%nat -> (n <= length src)%nat ->
  length (memcpy dst src n) = length dst.
Proof.
  intros Hd Hs. unfold memcpy.
  rewrite length_app, length_take, length_drop. lia.
Qed.

(** C8.  [handle_response] stores the first [min len (AT_BUF_SIZE - 1)]
    bytes of the response, puts a NUL behind them and touches nothing
    beyond; whatever the length, the delivery is signalled to the waiter
    in the same way: there is no error path. *)
Theorem handle_response_truncates (AT_BUF_SIZE : nat) (buf : list Z) (len : nat)
  (p : at_freertos) :
  (0 < AT_BUF_SIZE)%nat ->
  length (response p) = AT_BUF_SIZE ->
  (len <= length buf)%nat ->
  let n := Nat.min len (AT_BUF_SIZE - 1) in
  let p' := handle_response AT_BUF_SIZE buf len p in
  take n (response p') = take n buf /\
  response p' !! n = Some 0 /\
  drop (S n) (response p') = drop (S n) (response p) /\
  length (response p') = AT_BUF_SIZE /\
  waiting p' = false /\ xSem p' = true /\
  open p' = open p /\ at_pub p' = at_pub p.
Proof.
  intros Hcap Hlen Hbuf n p'.
  assert (Hr : response p' = <[n := 0]> (memcpy (response p) buf n))
    by apply handle_response_buffer.
  assert (Hnb : (n <= length buf)%nat) by (unfold n; lia).
  assert (Hnc : (n < length (response p))%nat) by (unfold n; lia).
  assert (Hm : length (memcpy (response p) buf n) = AT_BUF_SIZE).
  { rewrite memcpy_length; lia. }
  rewrite Hr. repeat split.
  - rewrite take_insert_ge by lia. unfold memcpy.
    rewrite take_app_le by (rewrite length_take; lia).
    rewrite take_take. f_equal. lia.
  - apply list_lookup_insert_eq. lia.
  - rewrite drop_insert_lt by lia. unfold memcpy.
    rewrite drop_app_ge by (rewrite length_take; lia).
    rewrite length_take, drop_drop. f_equal. lia.
  - rewrite length_insert. exact Hm.
Qed.

Lemma handle_response_truncates_witness :
  let p := priv open_channel in
  let p' := handle_response 16 (cstr "+CSQ: 14,0 and a long tail") 26 p in
  ((0 < 16)%nat /\ length (response p) = 16%nat /\
   (26 <= length (cstr "+CSQ: 14,0 and a long tail"))%nat) /\
  take 15 (response p') = cstr "+CSQ: 14,0 and " /\
  response p' !! 15%nat = Some 0.
Proof.
  intros p p'.
  split; [repeat split; vm_compute; try reflexivity; lia|].
  pose proof (handle_response_truncates 16 (cstr "+CSQ: 14,0 and a long tail") 26 p) as H.
  assert (H1 : (0 < 16)%nat) by lia.
  assert (H2 : length (response p) = 16%nat) by reflexivity.
  assert (H3 : (26 <= length (cstr "+CSQ: 14,0 and a long tail"))%nat) by (vm_compute; lia).
  destruct (H H1 H2 H3) as (Ha & Hb & _).
  split; [exact Ha | exact Hb].
Defined.

(** ** Waiting for the response *)

Lemma frame_refl w : frame w w.
Proof. now repeat split. Qed.

Lemma frame_trans w1 w2 w3 : frame w1 w2 -> frame w2 w3 -> frame w1 w3.
Proof.
  intros (A1 & A2 & A3 & A4 & A5) (B1 & B2 & B3 & B4 & B5).
  repeat split; congruence.
Qed.

Lemma set_xSem_same p : xSem p = false -> set_xSem false p = p.
Proof. destruct p; simpl; intros ->; reflexivity. Qed.

Section Waiting.

Context (AT_BUF_SIZE : nat).
Context (uart_accepts : nat -> list Z -> Z) (reader : nat -> list env_event).

#[local] Abbreviation env_step := (env_step AT_BUF_SIZE).
#[local] Abbreviation xSemaphoreTake_wait := (xSemaphoreTake_wait AT_BUF_SIZE reader).
#[local] Abbreviation wait_loop := (wait_loop AT_BUF_SIZE reader).
#[local] Abbreviation _at_command := (_at_command AT_BUF_SIZE uart_accepts reader).
#[local] Abbreviation at_command := (at_command AT_BUF_SIZE uart_accepts reader).
#[local] Abbreviation at_command_raw := (at_command_raw AT_BUF_SIZE uart_accepts reader).

Lemma handle_response_length buf p :
  length (response p) = AT_BUF_SIZE ->
  length (response (handle_response AT_BUF_SIZE buf (length buf) p)) = AT_BUF_SIZE.
Proof.
  intros Hl. rewrite handle_response_buffer, length_insert.
  destruct AT_BUF_SIZE as [|cap].
  - unfold memcpy. rewrite length_app, length_take, length_drop. lia.
  - rewrite memcpy_length; lia.
Qed.

Lemma handle_response_nul buf p :
  (0 < AT_BUF_SIZE)%nat ->
  length (response p) = AT_BUF_SIZE ->
  exists k, (k < AT_BUF_SIZE)%nat /\
    response (handle_response AT_BUF_SIZE buf (length buf) p) !! k = Some 0.
Proof.
  intros Hc Hl.
  exists (Nat.min (length buf) (AT_BUF_SIZE - 1)).
  split; [lia|].
  rewrite handle_response_buffer.
  apply list_lookup_insert_eq. rewrite memcpy_length; lia.
Qed.

Lemma env_step_frame w e : frame w (env_step w e).
Proof.
  destruct e as [buf|]; unfold frame; simpl.
  - now repeat split.
  - rewrite tx_app, filter_app. simpl. rewrite !app_nil_r. now repeat split.
Qed.

Lemma env_step_delivered w e :
  (0 < AT_BUF_SIZE)%nat ->
  delivered_or_waiting AT_BUF_SIZE w ->
  delivered_or_waiting AT_BUF_SIZE (env_step w e).
Proof.
  intros Hc [Hl Hd]. destruct e as [buf|].
  - split.
    + now apply handle_response_length.
    + right. now apply handle_response_nul.
  - split; [exact Hl | exact Hd].
Qed.

Lemma env_steps_frame es w : frame w (fold_left env_step es w).
Proof.
  revert w. induction es as [|e es IH]; intros w; simpl.
  - apply frame_refl.
  - eapply frame_trans; [apply env_step_frame | apply IH].
Qed.

Lemma env_steps_delivered es w :
  (0 < AT_BUF_SIZE)%nat ->
  delivered_or_waiting AT_BUF_SIZE w ->
  delivered_or_waiting AT_BUF_SIZE (fold_left env_step es w).
Proof.
  intros Hc. revert w. induction es as [|e es IH]; intros w Hd; simpl.
  - exact Hd.
  - apply IH. now apply env_step_delivered.
Qed.

Lemma set_xSem_frame b w : frame w (on_priv (set_xSem b) w).
Proof. now repeat split. Qed.

Lemma set_xSem_delivered b w :
  delivered_or_waiting AT_BUF_SIZE w ->
  delivered_or_waiting AT_BUF_SIZE (on_priv (set_xSem b) w).
Proof. intros Hd. exact Hd. Qed.

Lemma xSemaphoreTake_wait_frame w : frame w (snd (xSemaphoreTake_wait w)).
Proof.
  unfold xSemaphoreTake_wait. destruct (xSem (priv w)); simpl.
  - apply set_xSem_frame.
  - eapply frame_trans; [|apply set_xSem_frame].
    exact (env_steps_frame (reader (waits w))
             (mk_world (priv w) (trace w) (writes w) (S (waits w)))).
Qed.

Lemma xSemaphoreTake_wait_delivered w :
  (0 < AT_BUF_SIZE)%nat ->
  delivered_or_waiting AT_BUF_SIZE w ->
  delivered_or_waiting AT_BUF_SIZE (snd (xSemaphoreTake_wait w)).
Proof.
  intros Hc Hd. unfold xSemaphoreTake_wait. destruct (xSem (priv w)); simpl.
  - now apply set_xSem_delivered.
  - apply set_xSem_delivered.
    exact (env_steps_delivered (reader (waits w))
             (mk_world (priv w) (trace w) (writes w) (S (waits w))) Hc Hd).
Qed.

Lemma wait_loop_frame n w : frame w (wait_loop n w).
Proof.
  revert w. induction n as [|n IH]; intros w; simpl.
  - apply frame_refl.
  - destruct (open (priv w) && waiting (priv w)); [|apply frame_refl].
    pose proof (xSemaphoreTake_wait_frame w) as Hf.
    destruct (xSemaphoreTake_wait w) as [taken w1]; simpl in Hf.
    destruct taken; [exact Hf|].
    eapply frame_trans; [exact Hf | apply IH].
Qed.

Lemma wait_loop_delivered n w :
  (0 < AT_BUF_SIZE)%nat ->
  delivered_or_waiting AT_BUF_SIZE w ->
  delivered_or_waiting AT_BUF_SIZE (wait_loop n w).
Proof.
  intros Hc. revert w. induction n as [|n IH]; intros w Hd; simpl.
  - exact Hd.
  - destruct (open (priv w) && waiting (priv w)); [|exact Hd].
    pose proof (xSemaphoreTake_wait_delivered w Hc Hd) as Hf.
    destruct (xSemaphoreTake_wait w) as [taken w1]; simpl in Hf.
    destruct taken; [exact Hf|].
    now apply IH.
Qed.


End Waiting.

(** ** Commands on an open port *)

Section OpenPort.

Context (AT_BUF_SIZE : nat).
Context (uart_accepts : nat -> list Z -> Z) (reader : nat -> list env_event).

#[local] Abbreviation wait_loop := (wait_loop AT_BUF_SIZE reader).
#[local] Abbreviation _at_command := (_at_command AT_BUF_SIZE uart_accepts reader).
#[local] Abbreviation at_command := (at_command AT_BUF_SIZE uart_accepts reader).
#[local] Abbreviation at_command_raw := (at_command_raw AT_BUF_SIZE uart_accepts reader).

Lemma _at_command_open w data :
  open (priv w) = true ->
  _at_command w data = conclude (wait_loop (slices (timeout (priv w))) (armed w data)).
Proof.
  intros Ho. unfold _at_command, armed, delay_events, conclude. rewrite Ho. simpl.
  destruct (delay (priv w) =? 0); simpl; rewrite <- ?app_assoc; reflexivity.
Qed.

Lemma at_command_short w text :
  Z.of_nat (length text) < AT_COMMAND_LENGTH - 1 ->
  at_command w text = _at_command w (text ++ [CR]).
Proof.
  intros Hl. unfold at_command.
  destruct (Z.geb_spec (Z.of_nat (length text)) (AT_COMMAND_LENGTH - 1)); [lia|].
  reflexivity.
Qed.

Lemma at_command_long w text :
  AT_COMMAND_LENGTH - 1 <= Z.of_nat (length text) ->
  at_command w text = (NULL, w).
Proof.
  intros Hl. unfold at_command.
  destruct (Z.geb_spec (Z.of_nat (length text)) (AT_COMMAND_LENGTH - 1)); [|lia].
  reflexivity.
Qed.

Lemma tx_armed w data : tx (trace (armed w data)) = tx (trace w) ++ [data].
Proof.
  unfold armed, delay_events. simpl. rewrite !tx_app.
  destruct (delay (priv w) =? 0); reflexivity.
Qed.

Lemma conclude_effects w :
  tx (trace (snd (conclude w))) = tx (trace w) /\
  command_scanner (at_pub (priv (snd (conclude w)))) = None /\
  response (priv (snd (conclude w))) = response (priv w) /\
  (fst (conclude w) = RESPONSE -> waiting (priv w) = false).
Proof.
  unfold conclude.
  destruct (open (priv w)); simpl; [|repeat split; discriminate].
  destruct (waiting (priv w)); simpl.
  - rewrite !tx_app. simpl. rewrite !app_nil_r. repeat split; discriminate.
  - now repeat split.
Qed.

(** An accepted command writes exactly its bytes and clears the scanner. *)
Lemma _at_command_open_effects w data :
  open (priv w) = true ->
  tx (trace (snd (_at_command w data))) = tx (trace w) ++ [data] /\
  command_scanner (at_pub (priv (snd (_at_command w data)))) = None.
Proof.
  intros Ho. rewrite _at_command_open by exact Ho.
  destruct (conclude_effects (wait_loop (slices (timeout (priv w))) (armed w data)))
    as (Htx & Hsc & _).
  split; [|exact Hsc].
  rewrite Htx.
  destruct (wait_loop_frame AT_BUF_SIZE reader (slices (timeout (priv w))) (armed w data))
    as (Hf & _).
  rewrite Hf. apply tx_armed.
Qed.



Lemma _at_command_response w data w' :
  (0 < AT_BUF_SIZE)%nat ->
  length (response (priv w)) = AT_BUF_SIZE ->
  _at_command w data = (RESPONSE, w') ->
  nul_terminated AT_BUF_SIZE (response (priv w')).
Proof.
  intros Hc Hl Hr.
  destruct (open (priv w)) eqn:Ho.
  - rewrite _at_command_open in Hr by exact Ho.
    set (w6 := wait_loop (slices (timeout (priv w))) (armed w data)) in *.
    assert (Hd : delivered_or_waiting AT_BUF_SIZE w6).
    { apply wait_loop_delivered; [exact Hc|].
      split; [exact Hl | left; reflexivity]. }
    destruct (conclude_effects w6) as (_ & _ & Hresp & Hw).
    rewrite Hr in Hresp, Hw. simpl in Hresp, Hw.
    destruct Hd as [Hlen [Hwait | Hnul]].
    + rewrite Hw in Hwait by reflexivity. discriminate.
    + split; rewrite Hresp; assumption.
  - rewrite (_at_command_closed AT_BUF_SIZE uart_accepts reader w data Ho) in Hr.
    discriminate.
Qed.

(** C7.  When a command returns its response buffer rather than NULL, the
    buffer holds a NUL at an index below its capacity. *)
Theorem command_response_nul_terminated w text data w' :
  (0 < AT_BUF_SIZE)%nat ->
  length (response (priv w)) = AT_BUF_SIZE ->
  at_command w text = (RESPONSE, w') \/ at_command_raw w data = (RESPONSE, w') ->
  nul_terminated AT_BUF_SIZE (response (priv w')).
Proof.
  intros Hc Hl [Hr | Hr].
  - destruct (Z_lt_le_dec (Z.of_nat (length text)) (AT_COMMAND_LENGTH - 1)) as [Hs | Hs].
    + rewrite at_command_short in Hr by exact Hs.
      now apply (_at_command_response w (text ++ [CR]) w').
    + rewrite at_command_long in Hr by exact Hs. discriminate.
  - now apply (_at_command_response w data w').
Qed.

(** C2, as the code has it.  The expansion is sent, followed by a carriage
    return, when it is at most 78 bytes long (a line of at most 79 bytes)
    and the port is open; an expansion of 79 bytes or more makes
    [at_command] return NULL with the world untouched. *)
Theorem at_command_line_bound w text :
  (Z.of_nat (length text) + 1 < AT_COMMAND_LENGTH ->
   open (priv w) = true ->
   tx (trace (snd (at_command w text))) = tx (trace w) ++ [text ++ [CR]]) /\
  (AT_COMMAND_LENGTH <= Z.of_nat (length text) + 1 ->
   at_command w text = (NULL, w)).
Proof.
  split.
  - intros Hl Ho. rewrite at_command_short by lia.
    now apply _at_command_open_effects.
  - intros Hl. apply at_command_long. lia.
Qed.

End OpenPort.

(** ** Hexadecimal sends *)




Lemma take_min_length {A} (n : nat) (l : list A) :
  take (Nat.min n (length l)) l = take n l.
Proof.
  destruct (Nat.le_ge_cases n (length l)) as [H | H].
  - now rewrite Nat.min_l.
  - rewrite Nat.min_r by exact H. now rewrite !take_ge by lia.
Qed.

Lemma drop_min_length {A} (n : nat) (l : list A) :
  drop (Nat.min n (length l)) l = drop n l.
Proof.
  destruct (Nat.le_ge_cases n (length l)) as [H | H].
  - now rewrite Nat.min_l.
  - rewrite Nat.min_r by exact H. now rewrite !drop_ge by lia.
Qed.

Lemma chunks_fuel_nil {A} (fuel n : nat) : chunks_fuel fuel n (@nil A) = [].
Proof. now destruct fuel. Qed.

Lemma chunks_fuel_enough {A} (f1 f2 n : nat) (s : list A) :
  (0 < n)%nat -> (length s <= f1)%nat -> (length s <= f2)%nat ->
  chunks_fuel f1 n s = chunks_fuel f2 n s.
Proof.
  intros Hn. revert f2 s. induction f1 as [|f1 IH]; intros f2 s H1 H2.
  - destruct s; [|simpl in H1; lia]. now rewrite !chunks_fuel_nil.
  - destruct s as [|x s]; [now rewrite !chunks_fuel_nil|].
    destruct f2 as [|f2]; [simpl in H2; lia|].
    cbn [chunks_fuel]. f_equal.
    apply IH; rewrite length_drop; simpl in *; lia.
Qed.

Lemma concat_chunks {A} (n : nat) (s : list A) :
  (0 < n)%nat -> concat (chunks n s) = s.
Proof.
  intros Hn. unfold chunks.
  assert (H : forall f (l : list A), (length l <= f)%nat -> concat (chunks_fuel f n l) = l).
  { induction f as [|f IH]; intros l Hl.
    - destruct l; [reflexivity | simpl in Hl; lia].
    - destruct l as [|x l]; [reflexivity|].
      cbn [chunks_fuel concat]. rewrite IH.
      + apply take_drop.
      + rewrite length_drop. simpl in *. lia. }
  now apply H.
Qed.


Section HexSend.

Context (uart_accepts : nat -> list Z -> Z).

#[local] Abbreviation _at_send := (_at_send uart_accepts).
#[local] Abbreviation hex_loop := (send_hex_loop uart_accepts).
#[local] Abbreviation at_send_hex := (at_send_hex uart_accepts).
#[local] Abbreviation lines_sent := (send_lines uart_accepts).

(** One round of the loop, with the integer conversions resolved. *)
Lemma send_hex_loop_round fuel data o w :
  Z.of_nat (length data) <= INT_MAX ->
  (o < length data)%nat ->
  hex_loop (S fuel) data (Z.of_nat (length data)) (Z.of_nat o) w =
  let line := flat_map byte_to_hex (take 40 (drop o data)) in
  let '(sent, w1) := _at_send w line in
  if negb sent then Some (false, w1)
  else hex_loop fuel data (Z.of_nat (length data))
         (Z.of_nat (o + Nat.min 40 (length data - o))) w1.
Proof.
  intros Hmax Ho. unfold INT_MAX in Hmax.
  cbn [send_hex_loop].
  assert (E1 : size_t_wrap (Z.of_nat o) = Z.of_nat o)
    by (apply size_t_wrap_id; lia).
  assert (E2 : size_t_wrap (Z.of_nat (length data) - Z.of_nat o)
               = Z.of_nat (length data - o))
    by (rewrite size_t_wrap_id; lia).
  assert (E3 : size_t_wrap (AT_COMMAND_LENGTH / 2) = 40) by reflexivity.
  rewrite E1, E2, E3.
  destruct (Z.ltb_spec (Z.of_nat o) (Z.of_nat (length data))) as [_ | Hc]; [|lia].
  set (m := Nat.min 40 (length data - o)).
  assert (Elen : (if Z.of_nat (length data - o) >? 40
                  then AT_COMMAND_LENGTH / 2
                  else int_wrap (Z.of_nat (length data - o))) = Z.of_nat m).
  { rewrite Z.gtb_ltb.
    destruct (Z.ltb_spec 40 (Z.of_nat (length data - o))) as [H | H].
    - change (AT_COMMAND_LENGTH / 2) with 40. unfold m. lia.
    - rewrite int_wrap_id by (unfold INT_MAX; lia). unfold m. lia. }
  cbv zeta. rewrite Elen, !Nat2Z.id.
  assert (Etake : take m (drop o data) = take 40 (drop o data)).
  { unfold m. rewrite <- (length_drop data o). apply take_min_length. }
  rewrite Etake.
  assert (Eo : int_wrap (Z.of_nat o + Z.of_nat m) = Z.of_nat (o + m)).
  { rewrite int_wrap_id; unfold INT_MAX, m; lia. }
  rewrite Eo. reflexivity.
Qed.

Lemma send_hex_loop_done fuel data o w :
  Z.of_nat (length data) <= INT_MAX ->
  o = length data ->
  hex_loop fuel data (Z.of_nat (length data)) (Z.of_nat o) w = Some (true, w).
Proof.
  intros Hmax ->. unfold INT_MAX in Hmax.
  assert (E : (size_t_wrap (Z.of_nat (length data)) <? Z.of_nat (length data)) = false).
  { rewrite size_t_wrap_id by lia. apply Z.ltb_irrefl. }
  destruct fuel; cbn [send_hex_loop]; rewrite E; reflexivity.
Qed.

(** The loop writes the hexadecimal text of the 40-byte pieces of the data
    from [oset] on, one write per piece, until a write falls short. *)
Lemma send_hex_loop_lines fuel : forall data o w,
  open (priv w) = true ->
  Z.of_nat (length data) <= INT_MAX ->
  (o <= length data)%nat ->
  (length data - o <= fuel)%nat ->
  hex_loop fuel data (Z.of_nat (length data)) (Z.of_nat o) w =
  Some (lines_sent (map (flat_map byte_to_hex) (chunks_fuel fuel 40 (drop o data))) w).
Proof.
  induction fuel as [|fuel IH]; intros data o w Hopen Hmax Ho Hf.
  - rewrite send_hex_loop_done by (auto; lia).
    rewrite drop_ge by lia. reflexivity.
  - destruct (Nat.eq_dec o (length data)) as [-> | Hne].
    + rewrite send_hex_loop_done by auto.
      rewrite drop_all. reflexivity.
    + rewrite send_hex_loop_round by (auto; lia).
      assert (Hd : drop o data <> []).
      { intros E. apply (f_equal length) in E. rewrite length_drop in E. simpl in E. lia. }
      destruct (drop o data) as [|x l] eqn:Ed; [contradiction|].
      cbn [chunks_fuel map send_lines]. rewrite <- Ed.
      cbv zeta. unfold _at_send, uart_write. rewrite Hopen. cbn [negb].
      destruct (uart_accepts (writes w) _ =? _); cbn [negb]; [|reflexivity].
      rewrite IH; auto; try lia.
      do 3 f_equal.
      rewrite <- drop_drop. rewrite <- (length_drop data o).
      rewrite drop_min_length. reflexivity.
Qed.

Lemma accepted_shift w1 w i line :
  writes w1 = S (writes w) ->
  accepted uart_accepts w1 i line <-> accepted uart_accepts w (S i) line.
Proof.
  intros Hw. unfold accepted. rewrite Hw.
  replace (S (writes w) + i)%nat with (writes w + S i)%nat by lia.
  reflexivity.
Qed.

(** Where the sending stops: [k] lines are written; all but possibly the
    last of them are taken in full; the result is true when all lines were
    written and taken, false when the last written line fell short. *)
Lemma send_lines_outcome lines : forall w,
  exists k,
    (k <= length lines)%nat /\
    tx (trace (snd (lines_sent lines w))) = tx (trace w) ++ take k lines /\
    (forall i line, (S i < k)%nat -> lines !! i = Some line -> accepted uart_accepts w i line) /\
    (fst (lines_sent lines w) = true ->
     k = length lines /\
     forall i line, lines !! i = Some line -> accepted uart_accepts w i line) /\
    (fst (lines_sent lines w) = false ->
     exists line, (1 <= k)%nat /\ lines !! (k - 1)%nat = Some line /\
                  ~ accepted uart_accepts w (k - 1) line).
Proof.
  induction lines as [|l ls IH]; intros w.
  - exists O. simpl. rewrite app_nil_r. repeat split; try lia; try discriminate.
  - cbn [send_lines]. unfold uart_write.
    set (w1 := mk_world (priv w) (trace w ++ [EvUartWrite l]) (S (writes w)) (waits w)).
    assert (Hw1 : writes w1 = S (writes w)) by reflexivity.
    assert (Ht1 : tx (trace w1) = tx (trace w) ++ [l]).
    { unfold w1. simpl. now rewrite tx_app. }
    destruct (Z.eqb_spec (uart_accepts (writes w) l) (Z.of_nat (length l))) as [Hacc | Hacc].
    + assert (H0 : accepted uart_accepts w 0 l).
      { unfold accepted. now rewrite Nat.add_0_r. }
      destruct (IH w1) as (k & Hk & Htx & Hpre & Htrue & Hfalse).
      exists (S k). split; [simpl; lia|]. split; [|split; [|split]].
      * rewrite Htx, Ht1, <- app_assoc. reflexivity.
      * intros [|i] line Hi Hl.
        { simpl in Hl. now inversion Hl; subst. }
        simpl in Hl. apply (accepted_shift w1 w i line Hw1).
        apply Hpre; [lia | exact Hl].
      * intros Hs. destruct (Htrue Hs) as [-> Hall]. split; [reflexivity|].
        intros [|i] line Hl.
        { simpl in Hl. now inversion Hl; subst. }
        simpl in Hl. apply (accepted_shift w1 w i line Hw1). now apply Hall.
      * intros Hs. destruct (Hfalse Hs) as (line & Hk1 & Hl & Hn).
        exists line. split; [lia|].
        replace (S k - 1)%nat with (S (k - 1)) by lia.
        split; [exact Hl|].
        intros Ha. apply Hn. now apply (accepted_shift w1 w (k - 1) line Hw1).
    + exists 1%nat. simpl. split; [lia|]. split; [exact Ht1|].
      split; [intros i line Hi; lia|].
      split; [discriminate|].
      intros _. exists l. split; [lia|]. split; [reflexivity|].
      unfold accepted. now rewrite Nat.add_0_r.
Qed.






(** C10.  With nothing to send the loop is not entered: no write is made
    and the result is true, on an open port as on any other. *)
Theorem at_send_hex_empty w : at_send_hex w [] = Some (true, w).
Proof. reflexivity. Qed.

End HexSend.



(** ** The scanner of a rejected command *)

Section CommandScanner.

Context (AT_BUF_SIZE : nat).
Context (uart_accepts : nat -> list Z -> Z) (reader : nat -> list env_event).

#[local] Abbreviation _at_command := (_at_command AT_BUF_SIZE uart_accepts reader).
#[local] Abbreviation at_command := (at_command AT_BUF_SIZE uart_accepts reader).
#[local] Abbreviation at_command_raw := (at_command_raw AT_BUF_SIZE uart_accepts reader).

Lemma _at_command_scanner_changed w data :
  command_scanner (at_pub (priv (snd (_at_command w data))))
    <> command_scanner (at_pub (priv w)) ->
  open (priv w) = true /\
  tx (trace (snd (_at_command w data))) = tx (trace w) ++ [data].
Proof.
  intros Hne. destruct (open (priv w)) eqn:Ho.
  - split; [reflexivity|].
    now apply _at_command_open_effects.
  - rewrite (_at_command_closed AT_BUF_SIZE uart_accepts reader w data Ho) in Hne.
    now contradiction Hne.
Qed.

(** C9.  A command rejected on a closed port leaves the per-command
    scanner as it was installed, so that it is still there for the next
    command; and whenever a command does change the scanner, the port was
    open and the command's bytes have been written to the UART. *)
Theorem closed_port_keeps_command_scanner w scanner text data :
  let w0 := at_set_command_scanner scanner w in
  (open (priv w) = false ->
   command_scanner (at_pub (priv (snd (at_command w0 text)))) = scanner /\
   command_scanner (at_pub (priv (snd (at_command_raw w0 data)))) = scanner) /\
  (command_scanner (at_pub (priv (snd (at_command w0 text)))) <> scanner ->
   open (priv w) = true /\
   tx (trace (snd (at_command w0 text))) = tx (trace w) ++ [text ++ [CR]]) /\
  (command_scanner (at_pub (priv (snd (at_command_raw w0 data)))) <> scanner ->
   open (priv w) = true /\
   tx (trace (snd (at_command_raw w0 data))) = tx (trace w) ++ [data]).
Proof.
  intros w0. split; [|split].
  - intros Hc.
    assert (Hc0 : open (priv w0) = false) by exact Hc.
    destruct (commands_closed AT_BUF_SIZE uart_accepts reader w0 text data Hc0)
      as [-> ->].
    now split.
  - intros Hne.
    destruct (Z_lt_le_dec (Z.of_nat (length text)) (AT_COMMAND_LENGTH - 1)) as [Hs | Hs].
    + rewrite at_command_short in * by exact Hs.
      now apply (_at_command_scanner_changed w0 (text ++ [CR])).
    + rewrite at_command_long in Hne by exact Hs. now contradiction Hne.
  - intros Hne. now apply (_at_command_scanner_changed w0 data).
Qed.

End CommandScanner.

Lemma closed_port_keeps_command_scanner_witness :
  open (priv closed_channel) = false /\
  command_scanner (at_pub (priv (snd
    (at_command_raw 16 uart_takes_all reader_silent
       (at_set_command_scanner (Some any_line) closed_channel) [1; 2; 3]))))
  = Some any_line.
Proof.
  split; [reflexivity|].
  apply (closed_port_keeps_command_scanner 16 uart_takes_all reader_silent
           closed_channel (Some any_line) [] [1; 2; 3]).
  reflexivity.
Defined.

(** ** Sample runs *)


Lemma command_response_nul_terminated_witness :
  let run := at_command 16 uart_takes_all (reader_answers (cstr "+CSQ: 14,0"))
               open_channel (cstr "AT+CSQ") in
  ((0 < 16)%nat /\ length (response (priv open_channel)) = 16%nat /\
   fst run = RESPONSE) /\
  nul_terminated 16 (response (priv (snd run))).
Proof.
  intros run.
  assert (H1 : (0 < 16)%nat) by lia.
  assert (H2 : length (response (priv open_channel)) = 16%nat) by reflexivity.
  assert (H3 : run = (RESPONSE, snd run)) by (vm_compute; reflexivity).
  split; [split; [exact H1 | split; [exact H2 | vm_compute; reflexivity]]|].
  apply (command_response_nul_terminated 16 uart_takes_all
           (reader_answers (cstr "+CSQ: 14,0")) open_channel
           (cstr "AT+CSQ") [] (snd run) H1 H2).
  left. exact H3.
Defined.

Lemma at_command_line_bound_witness :
  (Z.of_nat (length (cstr "AT+CSQ")) + 1 < AT_COMMAND_LENGTH /\
   open (priv open_channel) = true) /\
  tx (trace (snd (at_command 16 uart_takes_all reader_silent open_channel (cstr "AT+CSQ"))))
  = tx (trace open_channel) ++ [cstr "AT+CSQ" ++ [CR]].
Proof.
  assert (H1 : Z.of_nat (length (cstr "AT+CSQ")) + 1 < AT_COMMAND_LENGTH)
    by (vm_compute; reflexivity).
  assert (H2 : open (priv open_channel) = true) by reflexivity.
  split; [now split|].
  apply (at_command_line_bound 16 uart_takes_all reader_silent
           open_channel (cstr "AT+CSQ")); assumption.
Defined.

(** An expansion of 79 bytes makes a line of 80 bytes with its carriage
    return; on an open port [at_command] refuses it: NULL, and the world,
    its trace included, is as before. *)
Lemma at_command_80_byte_line_refused :
  let text := replicate 79 (char_of "A") in
  let w := open_channel in
  Z.of_nat (length (text ++ [CR])) = 80 /\
  open (priv w) = true /\
  at_command 16 uart_takes_all (reader_answers []) w text = (NULL, w).
Proof.
  repeat split.
Qed.

(** ** Option probing *)

Section Config.

Context (AT_BUF_SIZE : nat) (pdMS_TO_TICKS : Z -> Z).
Context (uart_accepts : nat -> list Z -> Z) (reader : nat -> list env_event).

(** The loop never ends in -1 when the expected text fits its buffer: a
    probe without response gives -2, everything else 0, the end of the
    loop included. *)
Lemma config_loop_results n : forall option value w,
  Z.of_nat (length (cstr "+" ++ fmt_s option ++ cstr ": " ++ fmt_s value)) < 32 ->
  let r := fst (config_loop AT_BUF_SIZE pdMS_TO_TICKS uart_accepts reader n option value w) in
  r = 0 \/ r = -2.
Proof.
  induction n as [|n IH]; intros option value w Hfit; cbn [config_loop].
  - now left.
  - destruct (at_command _ _ _ w _) as [[|] w1]; [now right|].
    cbv zeta.
    destruct (Z.geb_spec (Z.of_nat (length (cstr "+" ++ fmt_s option ++ cstr ": " ++ fmt_s value))) 32) as [H | _]; [lia|].
    destruct (strncmp _ _ _ =? 0); [now left|].
    destruct (at_command _ _ _ w1 _) as [r2 w2].
    now apply IH.
Qed.

(** The three ways a round ends. *)
Lemma config_loop_no_response n option value w w1 :
  at_command AT_BUF_SIZE uart_accepts reader w (cstr "AT+" ++ fmt_s option ++ cstr "?")
    = (NULL, w1) ->
  config_loop AT_BUF_SIZE pdMS_TO_TICKS uart_accepts reader (S n) option value w = (-2, w1).
Proof. intros H. cbn [config_loop]. now rewrite H. Qed.

Lemma config_loop_match n option value w w1 :
  let expected := cstr "+" ++ fmt_s option ++ cstr ": " ++ fmt_s value in
  at_command AT_BUF_SIZE uart_accepts reader w (cstr "AT+" ++ fmt_s option ++ cstr "?")
    = (RESPONSE, w1) ->
  Z.of_nat (length expected) < 32 ->
  strncmp (response (priv w1)) expected (strlen expected) = 0 ->
  config_loop AT_BUF_SIZE pdMS_TO_TICKS uart_accepts reader (S n) option value w = (0, w1).
Proof.
  intros expected H Hfit Hm. cbn [config_loop]. rewrite H. cbv zeta.
  fold expected.
  destruct (Z.geb_spec (Z.of_nat (length expected)) 32) as [Hge | _]; [lia|].
  now rewrite Hm.
Qed.

Lemma config_loop_exhausted option value w :
  config_loop AT_BUF_SIZE pdMS_TO_TICKS uart_accepts reader O option value w = (0, w).
Proof. reflexivity. Qed.

End Config.

(** C1, the return value after the last round.  One attempt, a modem that
    answers ["+X: 0"] to everything, the option wanted at ["1"]: the probe
    is answered and does not match, the setting command is sent, the loop
    ends, and [at_config] returns 0 where -1 is documented.  Three
    attempts end the same way after three such rounds. *)
Theorem at_config_exhausted_returns_0 :
  let modem := reader_answers (cstr "+X: 0") in
  let run := at_config 16 ticks_1kHz uart_takes_all modem
               open_channel (cstr "X") (cstr "1") 1 in
  let run3 := at_config 16 ticks_1kHz uart_takes_all modem
                open_channel (cstr "X") (cstr "1") 3 in
  fst run = 0 /\
  tx (trace (snd run)) = [cstr "AT+X?" ++ [CR]; cstr "AT+X=1" ++ [CR]] /\
  strncmp (cstr "+X: 0") (cstr "+X: 1") (strlen (cstr "+X: 1")) <> 0 /\
  fst run3 = 0 /\
  length (tx (trace (snd run3))) = 6%nat.
Proof.
  vm_compute. repeat split. discriminate.
Qed.

(** * Further properties of the channel code *)

(** ** Hexadecimal text, read back *)

Lemma byte_to_hex_decodes :
  Forall (fun b => Forall (fun c => c ∈ hex_digits) (byte_to_hex b) /\
                   hex_decode_spec (byte_to_hex b) = [b mod 256])
         (seqZ (-128) 384).
Proof. apply (bool_decide_unpack _). vm_compute. exact I. Qed.

(** X1.  Whether [char] is signed or not, [byte_to_hex] gives two
    characters out of [0-9A-F] that read back as the byte's value modulo
    256: distinct bytes get distinct texts. *)
Theorem byte_to_hex_round_trip (b : Z) :
  is_char b ->
  Forall (fun c => c ∈ hex_digits) (byte_to_hex b) /\
  hex_decode_spec (byte_to_hex b) = [b mod 256].
Proof.
  intros Hb. pose proof byte_to_hex_decodes as H.
  rewrite Forall_forall in H. apply H.
  apply elem_of_seqZ. unfold is_char in Hb. lia.
Qed.

Lemma byte_to_hex_round_trip_witness :
  is_char (-1) /\ hex_decode_spec (byte_to_hex (-1)) = [255].
Proof.
  assert (H : is_char (-1)) by (unfold is_char; lia).
  split; [exact H|].
  exact (proj2 (byte_to_hex_round_trip (-1) H)).
Defined.

Lemma byte_to_hex_shape b : exists h l, byte_to_hex b = [h; l].
Proof. unfold byte_to_hex. eauto. Qed.

Lemma hex_decode_flat_map s :
  Forall is_char s ->
  Forall (fun c => c ∈ hex_digits) (flat_map byte_to_hex s) /\
  hex_decode_spec (flat_map byte_to_hex s) = map (fun b => b mod 256) s.
Proof.
  induction 1 as [|b s Hb _ [IH1 IH2]]; cbn [flat_map map].
  - split; [constructor | reflexivity].
  - pose proof (byte_to_hex_decodes) as H.
    rewrite Forall_forall in H.
    destruct (H b) as [Hd Hv]; [apply elem_of_seqZ; unfold is_char in Hb; lia|].
    destruct (byte_to_hex_shape b) as (h & l & E). rewrite E in *.
    split.
    + apply Forall_app. split; assumption.
    + cbn [app hex_decode_spec] in *. rewrite IH2. now inversion Hv.
Qed.

Lemma concat_map_flat_map {A B} (f : A -> list B) (cs : list (list A)) :
  concat (map (flat_map f) cs) = flat_map f (concat cs).
Proof.
  induction cs as [|c cs IH]; [reflexivity|].
  simpl. now rewrite flat_map_app, IH.
Qed.

(** X2.  When [at_send_hex] returns true on an open port, what it wrote
    to the UART consists of characters out of [0-9A-F] only and reads back
    as the data it was given (each byte modulo 256). *)
Theorem at_send_hex_round_trip uart_accepts w data w' :
  open (priv w) = true ->
  Forall is_char data ->
  Z.of_nat (length data) <= INT_MAX ->
  at_send_hex uart_accepts w data = Some (true, w') ->
  Forall (fun c => c ∈ hex_digits) (concat (new_tx w w')) /\
  hex_decode_spec (concat (new_tx w w')) = map (fun b => b mod 256) data.
Proof.
  intros Hopen Hchars Hmax Hrun.
  pose proof (send_hex_loop_lines uart_accepts (length data) data O w Hopen Hmax) as H.
  change (Z.of_nat 0) with 0 in H.
  unfold at_send_hex in Hrun. rewrite H, drop_0 in Hrun by lia. clear H.
  set (lines := map (flat_map byte_to_hex) (chunks_fuel (length data) 40 data)) in *.
  destruct (send_lines_outcome uart_accepts lines w) as (k & _ & Htx & _ & Htrue & _).
  inversion Hrun as [Hs]. rewrite Hs in Htx, Htrue. simpl in Htx, Htrue.
  destruct (Htrue eq_refl) as [-> _]. rewrite firstn_all in Htx.
  assert (Hnew : new_tx w w' = lines).
  { unfold new_tx. rewrite Htx. apply drop_app_length. }
  rewrite Hnew. unfold lines.
  rewrite concat_map_flat_map.
  change (chunks_fuel (length data) 40 data) with (chunks 40 data).
  rewrite concat_chunks by lia.
  now apply hex_decode_flat_map.
Qed.

Lemma at_send_hex_round_trip_witness :
  let w := open_channel in
  let data := [0; 1; 255; 127; -128] in
  exists w',
    (open (priv w) = true /\ Forall is_char data /\
     Z.of_nat (length data) <= INT_MAX /\
     at_send_hex uart_takes_all w data = Some (true, w')) /\
    hex_decode_spec (concat (new_tx w w')) = [0; 1; 255; 127; 128].
Proof.
  intros w data.
  assert (H1 : open (priv w) = true) by reflexivity.
  assert (H2 : Forall is_char data)
    by (repeat constructor; unfold is_char; lia).
  assert (H3 : Z.of_nat (length data) <= INT_MAX) by (vm_compute; discriminate).
  destruct (at_send_hex uart_takes_all w data) as [[sent w']|] eqn:E;
    [|vm_compute in E; discriminate].
  assert (Hs : sent = true) by (vm_compute in E; now inversion E).
  subst sent. exists w'.
  split; [now repeat split|].
  exact (proj2 (at_send_hex_round_trip uart_takes_all w data w' H1 H2 H3 E)).
Defined.

(** ** The string a caller reads from the response buffer *)

Lemma strlen_le s : (strlen s <= length s)%nat.
Proof.
  induction s as [|c s IH]; simpl; [lia|].
  destruct (c =? 0); simpl; lia.
Qed.

Lemma strlen_app_nul a b : strlen (a ++ 0 :: b) = strlen a.
Proof.
  induction a as [|c a IH]; simpl; [reflexivity|].
  destruct (c =? 0); [reflexivity|]. now rewrite IH.
Qed.

Lemma fmt_s_app_nul a b : fmt_s (a ++ 0 :: b) = fmt_s a.
Proof.
  unfold fmt_s. rewrite strlen_app_nul.
  apply take_app_le, strlen_le.
Qed.

Lemma strlen_no_nul s : Forall (fun c => c <> 0) s -> strlen s = length s.
Proof.
  induction 1 as [|c s Hc _ IH]; simpl; [reflexivity|].
  destruct (Z.eqb_spec c 0); [contradiction|]. now rewrite IH.
Qed.

(** The buffer after a delivery: the bytes kept, a NUL, the old tail. *)
Lemma handle_response_layout (AT_BUF_SIZE : nat) (buf : list Z) (len : nat)
  (p : at_freertos) :
  (0 < AT_BUF_SIZE)%nat ->
  length (response p) = AT_BUF_SIZE ->
  (len <= length buf)%nat ->
  let n := Nat.min len (AT_BUF_SIZE - 1) in
  response (handle_response AT_BUF_SIZE buf len p)
  = take n buf ++ 0 :: drop (S n) (response p).
Proof.
  intros Hcap Hlen Hbuf n.
  rewrite handle_response_buffer. fold n. unfold memcpy.
  assert (Hn : length (take n buf) = n) by (rewrite length_take; lia).
  rewrite insert_app_r_alt by lia. rewrite Hn, Nat.sub_diag.
  f_equal.
  destruct (drop n (response p)) as [|y l] eqn:Ed.
  - apply (f_equal length) in Ed. rewrite length_drop in Ed. simpl in Ed. lia.
  - simpl. f_equal.
    assert (El : l = drop 1 (drop n (response p))) by now rewrite Ed.
    rewrite El, drop_drop. f_equal. lia.
Qed.

(** X3.  After a delivery the response buffer, read as a C string, is the
    delivered response cut at [AT_BUF_SIZE - 1] bytes (and at its first
    NUL, if it has one): nothing of an earlier response shows through, and
    the string is never longer than [AT_BUF_SIZE - 1]. *)
Theorem handle_response_c_string (AT_BUF_SIZE : nat) (buf : list Z) (len : nat)
  (p : at_freertos) :
  (0 < AT_BUF_SIZE)%nat ->
  length (response p) = AT_BUF_SIZE ->
  (len <= length buf)%nat ->
  let n := Nat.min len (AT_BUF_SIZE - 1) in
  let p' := handle_response AT_BUF_SIZE buf len p in
  fmt_s (response p') = fmt_s (take n buf) /\
  (strlen (response p') <= AT_BUF_SIZE - 1)%nat /\
  (Forall (fun c => c <> 0) (take n buf) -> fmt_s (response p') = take n buf).
Proof.
  intros Hcap Hlen Hbuf n p'.
  assert (Hr : response p' = take n buf ++ 0 :: drop (S n) (response p))
    by now apply handle_response_layout.
  rewrite Hr, fmt_s_app_nul, strlen_app_nul.
  split; [reflexivity|]. split.
  - pose proof (strlen_le (take n buf)) as H.
    rewrite length_take in H. lia.
  - intros Hnz. unfold fmt_s. rewrite (strlen_no_nul _ Hnz).
    apply firstn_all.
Qed.

Lemma handle_response_c_string_witness :
  let p := set_response (cstr "an old and longer response") (priv open_channel) in
  let p' := handle_response 26 (cstr "+CSQ: 14,0") 10 p in
  ((0 < 26)%nat /\ length (response p) = 26%nat /\
   (10 <= length (cstr "+CSQ: 14,0"))%nat) /\
  fmt_s (response p') = cstr "+CSQ: 14,0".
Proof.
  intros p p'.
  assert (H1 : (0 < 26)%nat) by lia.
  assert (H2 : length (response p) = 26%nat) by reflexivity.
  assert (H3 : (10 <= length (cstr "+CSQ: 14,0"))%nat) by (vm_compute; lia).
  split; [now repeat split|].
  exact (proj1 (handle_response_c_string 26 (cstr "+CSQ: 14,0") 10 p H1 H2 H3)).
Defined.

(** ** How a command ends *)

Section Outcomes.

Context (AT_BUF_SIZE : nat).
Context (uart_accepts : nat -> list Z -> Z) (reader : nat -> list env_event).

#[local] Abbreviation step := (env_step AT_BUF_SIZE).
#[local] Abbreviation sem_wait := (xSemaphoreTake_wait AT_BUF_SIZE reader).
#[local] Abbreviation loop := (wait_loop AT_BUF_SIZE reader).
#[local] Abbreviation command := (_at_command AT_BUF_SIZE uart_accepts reader).
#[local] Abbreviation at_command := (at_command AT_BUF_SIZE uart_accepts reader).
#[local] Abbreviation at_command_raw := (at_command_raw AT_BUF_SIZE uart_accepts reader).

Lemma env_steps_settings es w :
  waits (fold_left step es w) = waits w /\
  delay (priv (fold_left step es w)) = delay (priv w).
Proof.
  revert w. induction es as [|e es IH]; intros w; simpl; [now split|].
  destruct (IH (step w e)) as [-> ->]. now destruct e.
Qed.

Lemma sem_wait_settings w :
  (waits w <= waits (snd (sem_wait w)) <= S (waits w))%nat /\
  delay (priv (snd (sem_wait w))) = delay (priv w).
Proof.
  unfold xSemaphoreTake_wait. destruct (xSem (priv w)); simpl; [split; [lia | reflexivity]|].
  destruct (env_steps_settings (reader (waits w))
              (mk_world (priv w) (trace w) (writes w) (S (waits w)))) as [-> ->].
  simpl. split; [lia | reflexivity].
Qed.

Lemma loop_settings n : forall w,
  (waits w <= waits (loop n w) <= waits w + n)%nat /\
  delay (priv (loop n w)) = delay (priv w).
Proof.
  induction n as [|n IH]; intros w; simpl; [split; [lia | reflexivity]|].
  destruct (open (priv w) && waiting (priv w)); [|split; [lia | reflexivity]].
  pose proof (sem_wait_settings w) as [Hw Hd].
  destruct (sem_wait w) as [taken w1]; simpl in Hw, Hd.
  destruct taken; [split; [lia | exact Hd]|].
  destruct (IH w1) as [Hw1 Hd1]. split; [lia | congruence].
Qed.

Lemma conclude_settings w :
  waits (snd (conclude w)) = waits w /\
  delay (priv (snd (conclude w))) = delay (priv w) /\
  timeout (priv (snd (conclude w))) = timeout (priv w) /\
  cbs (at_pub (priv (snd (conclude w)))) = cbs (at_pub (priv w)) /\
  open (priv (snd (conclude w))) = open (priv w) /\
  waiting (priv (snd (conclude w))) = waiting (priv w).
Proof.
  unfold conclude.
  destruct (open (priv w)) eqn:Ho; simpl; [|now repeat split].
  destruct (waiting (priv w)) eqn:Hw; simpl; now repeat split.
Qed.

Lemma conclude_parser_calls w :
  let r := fst (conclude w) in
  let w' := snd (conclude w) in
  (r = RESPONSE /\ open (priv w) = true /\ waiting (priv w) = false /\
   parser_calls w' = parser_calls w) \/
  (r = NULL /\ open (priv w) = true /\ waiting (priv w) = true /\
   parser_calls w' = parser_calls w ++ [EvParserShowResidual; EvParserReset]) \/
  (r = NULL /\ open (priv w) = false /\ parser_calls w' = parser_calls w).
Proof.
  unfold conclude, parser_calls.
  destruct (open (priv w)); simpl; [|right; right; repeat split].
  destruct (waiting (priv w)); simpl.
  - right; left. rewrite !filter_app. simpl. rewrite <- app_assoc. repeat split.
  - left. repeat split.
Qed.

Lemma parser_calls_armed w data :
  parser_calls (armed w data) = parser_calls w ++ [EvParserAwaitResponse].
Proof.
  unfold parser_calls, armed, delay_events. simpl. rewrite !filter_app.
  destruct (delay (priv w) =? 0); simpl; now rewrite ?app_nil_r.
Qed.


(** X5.  With a timeout of zero, which is what a fresh channel has, a
    command on an open port does not wait at all: it returns NULL with the
    parser reset, whatever the other tasks would have delivered. *)
Theorem command_timeout_zero w data :
  open (priv w) = true ->
  timeout (priv w) = 0 ->
  timed_out w data (at_command_raw w data) /\
  waits (snd (at_command_raw w data)) = waits w /\
  response (priv (snd (at_command_raw w data))) = response (priv w).
Proof.
  intros Ho Ht. unfold at_command_raw.
  rewrite (_at_command_open AT_BUF_SIZE uart_accepts reader w data Ho), Ht.
  change (slices 0) with O. cbn [wait_loop].
  unfold conclude, timed_out. simpl. rewrite Ho. simpl.
  repeat split. rewrite <- !app_assoc. reflexivity.
Qed.

(** X6.  A command accepted on an open port ends in one of three ways:
    with the response, the port open and the parser only armed; with NULL
    after a timeout, the parser armed and then reset; or with NULL because
    the port was closed meanwhile, the parser armed and not reset. *)
Theorem command_outcomes w data :
  open (priv w) = true ->
  let r := fst (at_command_raw w data) in
  let w' := snd (at_command_raw w data) in
  (r = RESPONSE /\ open (priv w') = true /\ waiting (priv w') = false /\
   parser_calls w' = parser_calls w ++ [EvParserAwaitResponse]) \/
  (r = NULL /\ open (priv w') = true /\ waiting (priv w') = true /\
   parser_calls w' = parser_calls w ++
     [EvParserAwaitResponse; EvParserShowResidual; EvParserReset]) \/
  (r = NULL /\ open (priv w') = false /\
   parser_calls w' = parser_calls w ++ [EvParserAwaitResponse]).
Proof.
  intros Ho r w'. unfold r, w', at_command_raw.
  rewrite (_at_command_open AT_BUF_SIZE uart_accepts reader w data Ho).
  set (w6 := loop (slices (timeout (priv w))) (armed w data)).
  assert (Hp : parser_calls w6 = parser_calls w ++ [EvParserAwaitResponse]).
  { destruct (wait_loop_frame AT_BUF_SIZE reader (slices (timeout (priv w)))
                (armed w data)) as (_ & Hf & _).
    unfold parser_calls at 1. fold w6 in Hf. rewrite Hf.
    apply parser_calls_armed. }
  destruct (conclude_settings w6) as (_ & _ & _ & _ & Hopen & Hwait).
  rewrite Hopen, Hwait.
  destruct (conclude_parser_calls w6) as [H | [H | H]].
  - left. destruct H as (H1 & H2 & H3 & H4). rewrite H4, Hp. now repeat split.
  - right; left. destruct H as (H1 & H2 & H3 & H4).
    rewrite H4, Hp, <- app_assoc. now repeat split.
  - right; right. destruct H as (H1 & H2 & H4). rewrite H4, Hp. now repeat split.
Qed.

(** The loop when the response is delivered during the wait number [j]. *)
Lemma loop_delivers j : forall n w buf,
  open (priv w) = true -> waiting (priv w) = true -> xSem (priv w) = false ->
  (forall k, (waits w <= k < waits w + j)%nat -> reader k = []) ->
  reader (waits w + j)%nat = [EnvResponse buf] ->
  (j < n)%nat ->
  loop n w =
  mk_world (set_xSem false (handle_response AT_BUF_SIZE buf (length buf) (priv w)))
           (trace w) (writes w) (waits w + S j).
Proof.
  induction j as [|j IH]; intros n w buf Ho Hw Hs Hq Hr Hn;
    (destruct n as [|n]; [lia|]); cbn [wait_loop];
    rewrite Ho, Hw; cbn [andb]; unfold xSemaphoreTake_wait; rewrite Hs.
  - rewrite Nat.add_0_r in Hr. rewrite Hr. simpl.
    unfold on_priv. simpl. f_equal. lia.
  - rewrite (Hq (waits w)) by lia. simpl. rewrite Hs.
    unfold on_priv. simpl. rewrite set_xSem_same by exact Hs.
    rewrite (IH n (mk_world (priv w) (trace w) (writes w) (S (waits w))) buf);
      simpl; try assumption; try lia.
    + f_equal. lia.
    + intros k Hk. apply Hq. lia.
    + rewrite <- Hr. f_equal. lia.
Qed.

(** X7.  If the response of a command is delivered during its wait number
    [j], with [j] below the timeout and nothing happening before, the
    command returns after [j + 1] waits with the response buffer; read as
    a C string the buffer is the response, cut at [AT_BUF_SIZE - 1] bytes;
    the parser is not reset and the per-command scanner is cleared. *)
Theorem command_response_in_slice w data buf j :
  open (priv w) = true ->
  (0 < AT_BUF_SIZE)%nat ->
  length (response (priv w)) = AT_BUF_SIZE ->
  (j < slices (timeout (priv w)))%nat ->
  (forall k, (waits w <= k < waits w + j)%nat -> reader k = []) ->
  reader (waits w + j)%nat = [EnvResponse buf] ->
  exists w',
    at_command_raw w data = (RESPONSE, w') /\
    fmt_s (response (priv w'))
      = fmt_s (take (Nat.min (length buf) (AT_BUF_SIZE - 1)) buf) /\
    waits w' = (waits w + S j)%nat /\
    trace w' = trace w ++ delay_events w ++ [EvParserAwaitResponse; EvUartWrite data] /\
    command_scanner (at_pub (priv w')) = None.
Proof.
  intros Ho Hcap Hlen Hj Hq Hr. unfold at_command_raw.
  rewrite (_at_command_open AT_BUF_SIZE uart_accepts reader w data Ho).
  rewrite (loop_delivers j (slices (timeout (priv w))) (armed w data) buf);
    try reflexivity; try assumption.
  unfold conclude. simpl. rewrite Ho. simpl.
  eexists. split; [reflexivity|]. simpl.
  split; [|now repeat split].
  pose proof (handle_response_layout AT_BUF_SIZE buf (length buf)
                (set_xSem false (set_waiting true (priv w))) Hcap Hlen (le_n _)) as Hl.
  simpl in Hl. unfold handle_response in Hl. simpl in Hl.
  unfold handle_response. simpl. rewrite Hl.
  apply fmt_s_app_nul.
Qed.

(** X8.  What the semaphore and the [waiting] flag held before a command
    is of no consequence: a signal left over from an earlier response
    cannot complete the next command. *)
Theorem command_ignores_stale_signal w data b1 b2 :
  open (priv w) = true ->
  at_command_raw (on_priv (fun p => set_xSem b1 (set_waiting b2 p)) w) data
  = at_command_raw w data.
Proof.
  intros Ho. unfold at_command_raw.
  rewrite (_at_command_open AT_BUF_SIZE uart_accepts reader w data Ho).
  rewrite (_at_command_open AT_BUF_SIZE uart_accepts reader
             (on_priv (fun p => set_xSem b1 (set_waiting b2 p)) w) data Ho).
  reflexivity.
Qed.

(** X9.  A command changes none of the channel's lasting settings: the
    timeout, the delay and the callbacks are after the command what they
    were before, whatever happened during the wait. *)
Theorem command_keeps_settings w text data :
  (forall w', w' = snd (at_command_raw w data) \/ w' = snd (at_command w text) ->
     timeout (priv w') = timeout (priv w) /\
     delay (priv w') = delay (priv w) /\
     cbs (at_pub (priv w')) = cbs (at_pub (priv w))).
Proof.
  assert (H : forall d,
    timeout (priv (snd (command w d))) = timeout (priv w) /\
    delay (priv (snd (command w d))) = delay (priv w) /\
    cbs (at_pub (priv (snd (command w d)))) = cbs (at_pub (priv w))).
  { intros d. destruct (open (priv w)) eqn:Ho.
    - rewrite (_at_command_open AT_BUF_SIZE uart_accepts reader w d Ho).
      set (w6 := loop (slices (timeout (priv w))) (armed w d)).
      destruct (conclude_settings w6) as (_ & -> & -> & -> & _).
      destruct (wait_loop_frame AT_BUF_SIZE reader (slices (timeout (priv w)))
                  (armed w d)) as (_ & _ & Hpub & Ht & _).
      destruct (loop_settings (slices (timeout (priv w))) (armed w d)) as [_ Hd].
      fold w6 in Hpub, Ht, Hd. rewrite Hpub, Ht, Hd. now repeat split.
    - rewrite (_at_command_closed AT_BUF_SIZE uart_accepts reader w d Ho).
      now repeat split. }
  intros w' [-> | ->]; [apply H|].
  destruct (Z_lt_le_dec (Z.of_nat (length text)) (AT_COMMAND_LENGTH - 1)) as [Hs | Hs].
  - rewrite (at_command_short AT_BUF_SIZE uart_accepts reader w text Hs). apply H.
  - rewrite (at_command_long AT_BUF_SIZE uart_accepts reader w text Hs).
    now repeat split.
Qed.

End Outcomes.

Lemma command_timeout_zero_witness :
  let w := at_set_timeout 0 open_channel in
  (open (priv w) = true /\ timeout (priv w) = 0) /\
  timed_out w (cstr "AT" ++ [CR])
    (at_command_raw 16 uart_takes_all (reader_answers (cstr "OK")) w (cstr "AT" ++ [CR])).
Proof.
  intros w.
  assert (H1 : open (priv w) = true) by reflexivity.
  assert (H2 : timeout (priv w) = 0) by reflexivity.
  split; [now split|].
  exact (proj1 (command_timeout_zero 16 uart_takes_all (reader_answers (cstr "OK"))
                  w (cstr "AT" ++ [CR]) H1 H2)).
Defined.

Lemma command_outcomes_witness :
  let w := open_channel in
  let run := at_command_raw 16 uart_takes_all (fun _ => [EnvClose]) w (cstr "AT" ++ [CR]) in
  open (priv w) = true /\
  fst run = NULL /\ open (priv (snd run)) = false /\
  parser_calls (snd run) = parser_calls w ++ [EvParserAwaitResponse].
Proof.
  intros w run.
  assert (H1 : open (priv w) = true) by reflexivity.
  split; [exact H1|].
  destruct (command_outcomes 16 uart_takes_all (fun _ => [EnvClose]) w
              (cstr "AT" ++ [CR]) H1) as [H | [H | H]].
  - destruct H as (_ & H & _). vm_compute in H. discriminate.
  - destruct H as (_ & H & _). vm_compute in H. discriminate.
  - exact H.
Defined.

Lemma command_response_in_slice_witness :
  let w := open_channel in
  let reader := fun k => match k with 1%nat => [EnvResponse (cstr "+CSQ: 14,0")] | _ => [] end in
  (open (priv w) = true /\ (0 < 16)%nat /\ length (response (priv w)) = 16%nat /\
   (1 < slices (timeout (priv w)))%nat /\ reader (waits w + 1)%nat = [EnvResponse (cstr "+CSQ: 14,0")]) /\
  exists w',
    at_command_raw 16 uart_takes_all reader w (cstr "AT+CSQ" ++ [CR]) = (RESPONSE, w') /\
    fmt_s (response (priv w')) = cstr "+CSQ: 14,0" /\
    waits w' = 2%nat.
Proof.
  intros w reader.
  assert (H1 : open (priv w) = true) by reflexivity.
  assert (H2 : (0 < 16)%nat) by lia.
  assert (H3 : length (response (priv w)) = 16%nat) by reflexivity.
  assert (H4 : (1 < slices (timeout (priv w)))%nat) by (vm_compute; lia).
  assert (H5 : forall k, (waits w <= k < waits w + 1)%nat -> reader k = []).
  { intros k Hk. change (waits w) with O in Hk.
    assert (k = O) as -> by lia. reflexivity. }
  assert (H6 : reader (waits w + 1)%nat = [EnvResponse (cstr "+CSQ: 14,0")]) by reflexivity.
  split; [now repeat split|].
  destruct (command_response_in_slice 16 uart_takes_all reader w (cstr "AT+CSQ" ++ [CR])
              (cstr "+CSQ: 14,0") 1 H1 H2 H3 H4 H5 H6)
    as (w' & Hrun & Hstr & Hw & _).
  exists w'. split; [exact Hrun|]. split; [exact Hstr | exact Hw].
Defined.

Lemma command_ignores_stale_signal_witness :
  let w := open_channel in
  open (priv w) = true /\
  at_command_raw 16 uart_takes_all reader_silent
    (on_priv (fun p => set_xSem true (set_waiting false p)) w) (cstr "AT" ++ [CR])
  = at_command_raw 16 uart_takes_all reader_silent w (cstr "AT" ++ [CR]).
Proof.
  intros w.
  assert (H1 : open (priv w) = true) by reflexivity.
  split; [exact H1|].
  exact (command_ignores_stale_signal 16 uart_takes_all reader_silent w
           (cstr "AT" ++ [CR]) true false H1).
Defined.

(** ** Delay between commands *)

Section Delay.

Context (AT_BUF_SIZE : nat) (pdMS_TO_TICKS : Z -> Z).
Context (uart_accepts : nat -> list Z -> Z) (reader : nat -> list env_event).

Lemma env_steps_trace es : forall w,
  exists rest, trace (fold_left (env_step AT_BUF_SIZE) es w) = trace w ++ rest.
Proof.
  induction es as [|e es IH]; intros w; simpl.
  - exists []. now rewrite app_nil_r.
  - destruct (IH (env_step AT_BUF_SIZE w e)) as [rest Hr]. rewrite Hr.
    destruct e as [buf|]; simpl.
    + now exists rest.
    + exists ([EvUartDeinit] ++ rest). now rewrite app_assoc.
Qed.

Lemma wait_loop_trace n : forall w,
  exists rest, trace (wait_loop AT_BUF_SIZE reader n w) = trace w ++ rest.
Proof.
  induction n as [|n IH]; intros w; simpl.
  - exists []. now rewrite app_nil_r.
  - destruct (open (priv w) && waiting (priv w));
      [|exists []; now rewrite app_nil_r].
    unfold xSemaphoreTake_wait. destruct (xSem (priv w)); simpl.
    + exists []. now rewrite app_nil_r.
    + destruct (env_steps_trace (reader (waits w))
                  (mk_world (priv w) (trace w) (writes w) (S (waits w))))
        as [rest Hr]. simpl in Hr.
      destruct (xSem _).
      * simpl. now exists rest.
      * destruct (IH (on_priv (set_xSem false)
                        (fold_left (env_step AT_BUF_SIZE) (reader (waits w))
                           (mk_world (priv w) (trace w) (writes w) (S (waits w))))))
          as [rest' Hr'].
        rewrite Hr'. simpl. rewrite Hr. exists (rest ++ rest').
        now rewrite app_assoc.
Qed.

Lemma conclude_trace w : exists rest, trace (snd (conclude w)) = trace w ++ rest.
Proof.
  unfold conclude. destruct (open (priv w)); simpl.
  - destruct (waiting (priv w)); simpl.
    + exists [EvParserShowResidual; EvParserReset]. now rewrite <- app_assoc.
    + exists []. now rewrite app_nil_r.
  - exists []. now rewrite app_nil_r.
Qed.

(** X10.  After [at_set_delay] every command accepted on an open port
    begins by sleeping [pdMS_TO_TICKS(delay) + 1] ticks, before the parser
    is armed and the bytes are written; this holds for a delay of zero as
    well (the stored value is one tick more than the conversion gives). *)
Theorem at_set_delay_delays w d data :
  pdMS_TO_TICKS d + 1 <> 0 ->
  open (priv w) = true ->
  exists rest,
    trace (snd (at_command_raw AT_BUF_SIZE uart_accepts reader
                  (at_set_delay pdMS_TO_TICKS d w) data))
    = trace w ++
      [EvTaskDelay (pdMS_TO_TICKS d + 1); EvParserAwaitResponse; EvUartWrite data]
      ++ rest.
Proof.
  intros Hd Ho. unfold at_command_raw.
  set (w0 := at_set_delay pdMS_TO_TICKS d w).
  assert (Ho0 : open (priv w0) = true) by exact Ho.
  rewrite (_at_command_open AT_BUF_SIZE uart_accepts reader w0 data Ho0).
  destruct (conclude_trace (wait_loop AT_BUF_SIZE reader (slices (timeout (priv w0)))
                              (armed w0 data))) as [r1 H1].
  destruct (wait_loop_trace (slices (timeout (priv w0))) (armed w0 data)) as [r2 H2].
  rewrite H1, H2. exists (r2 ++ r1).
  unfold armed, delay_events, w0. simpl.
  destruct (Z.eqb_spec (pdMS_TO_TICKS d + 1) 0) as [E | _]; [contradiction|].
  rewrite <- !app_assoc. reflexivity.
Qed.

End Delay.

Lemma at_set_delay_delays_witness :
  (ticks_1kHz 0 + 1 <> 0 /\ open (priv open_channel) = true) /\
  exists rest,
    trace (snd (at_command_raw 16 uart_takes_all reader_silent
                  (at_set_delay ticks_1kHz 0 open_channel) (cstr "AT" ++ [CR])))
    = trace open_channel ++
      [EvTaskDelay 1; EvParserAwaitResponse; EvUartWrite (cstr "AT" ++ [CR])] ++ rest.
Proof.
  assert (H1 : ticks_1kHz 0 + 1 <> 0) by (vm_compute; discriminate).
  assert (H2 : open (priv open_channel) = true) by reflexivity.
  split; [now split|].
  exact (at_set_delay_delays 16 ticks_1kHz uart_takes_all reader_silent
           open_channel 0 (cstr "AT" ++ [CR]) H1 H2).
Defined.

(** ** One-way sends *)

(** Splitting a conjunction into its parts, and nothing else. *)
Ltac conjs := repeat match goal with |- _ /\ _ => split end.

Section Sends.

Context (uart_accepts : nat -> list Z -> Z).

Lemma new_tx_app w w' l : tx (trace w') = tx (trace w) ++ l -> new_tx w w' = l.
Proof. intros H. unfold new_tx. rewrite H. apply drop_app_length. Qed.

Lemma _at_send_effects w data :
  let ok := fst (_at_send uart_accepts w data) in
  let w' := snd (_at_send uart_accepts w data) in
  priv w' = priv w /\ waits w' = waits w /\ parser_calls w' = parser_calls w /\
  (ok = true <-> open (priv w) = true /\ accepted uart_accepts w 0 data) /\
  (open (priv w) = true -> new_tx w w' = [data]) /\
  (open (priv w) = false -> w' = w).
Proof.
  unfold _at_send, accepted, parser_calls.
  destruct (open (priv w)) eqn:Ho; simpl.
  - rewrite Nat.add_0_r, filter_app. simpl. rewrite app_nil_r.
    conjs; try reflexivity.
    + rewrite Z.eqb_eq. tauto.
    + intros _. apply new_tx_app. simpl. now rewrite tx_app.
    + discriminate.
  - conjs; try reflexivity; try discriminate.
    split; [discriminate | intros [H _]; discriminate].
Qed.

(** X11.  [at_send] and [at_send_raw] are one-way: they write the text as
    it is, with no carriage return added, in at most one write; they never
    call the parser, never wait and leave every field of the channel as it
    was.  The result is true exactly when the port is open, the text (for
    [at_send]) is shorter than 79 bytes and the driver took the write in
    full. *)
Theorem at_send_one_way w text :
  let ok := fst (at_send uart_accepts w text) in
  let w' := snd (at_send uart_accepts w text) in
  let ok_raw := fst (at_send_raw uart_accepts w text) in
  let w_raw := snd (at_send_raw uart_accepts w text) in
  (priv w' = priv w /\ waits w' = waits w /\ parser_calls w' = parser_calls w /\
   (new_tx w w' = [] \/ new_tx w w' = [text]) /\
   (ok = true <->
    open (priv w) = true /\ Z.of_nat (length text) < AT_COMMAND_LENGTH - 1 /\
    accepted uart_accepts w 0 text) /\
   (ok = true -> new_tx w w' = [text])) /\
  (priv w_raw = priv w /\ waits w_raw = waits w /\
   parser_calls w_raw = parser_calls w /\
   (new_tx w w_raw = [] \/ new_tx w w_raw = [text]) /\
   (ok_raw = true <-> open (priv w) = true /\ accepted uart_accepts w 0 text) /\
   (ok_raw = true -> new_tx w w_raw = [text])).
Proof.
  intros ok w' ok_raw w_raw.
  assert (Hnil : new_tx w w = []).
  { apply new_tx_app. now rewrite app_nil_r. }
  assert (Hraw : priv w_raw = priv w /\ waits w_raw = waits w /\
    parser_calls w_raw = parser_calls w /\
    (new_tx w w_raw = [] \/ new_tx w w_raw = [text]) /\
    (ok_raw = true <-> open (priv w) = true /\ accepted uart_accepts w 0 text) /\
    (ok_raw = true -> new_tx w w_raw = [text])).
  { unfold ok_raw, w_raw, at_send_raw.
    destruct (_at_send_effects w text) as (H1 & H2 & H3 & H4 & H5 & H6).
    conjs; try assumption.
    - destruct (open (priv w)); [right; now apply H5 | left; now rewrite H6].
    - intros H. apply H5. now apply H4. }
  split; [|exact Hraw].
  unfold ok, w', at_send.
  destruct (Z.geb_spec (Z.of_nat (length text)) (AT_COMMAND_LENGTH - 1)) as [Hl | Hl].
  - simpl. conjs; try reflexivity; try (now left); try discriminate.
    split; [discriminate | intros (_ & H & _); lia].
  - destruct Hraw as (H1 & H2 & H3 & H4 & H5 & H6).
    conjs; try assumption. tauto.
Qed.

Lemma send_lines_frame lines : forall w,
  priv (snd (send_lines uart_accepts lines w)) = priv w /\
  waits (snd (send_lines uart_accepts lines w)) = waits w /\
  parser_calls (snd (send_lines uart_accepts lines w)) = parser_calls w.
Proof.
  induction lines as [|l ls IH]; intros w; cbn [send_lines]; [now repeat split|].
  unfold uart_write.
  destruct (_ =? _).
  - destruct (IH (mk_world (priv w) (trace w ++ [EvUartWrite l]) (S (writes w)) (waits w)))
      as (-> & -> & ->).
    unfold parser_calls. simpl. rewrite filter_app. simpl. now rewrite app_nil_r.
  - unfold parser_calls. simpl. rewrite filter_app. simpl. now rewrite app_nil_r.
Qed.

Lemma at_send_hex_closed w data :
  open (priv w) = false ->
  Z.of_nat (length data) <= INT_MAX ->
  at_send_hex uart_accepts w data = Some (bool_decide (data = []), w).
Proof.
  intros Hc Hmax. destruct data as [|b data]; [reflexivity|].
  unfold at_send_hex.
  pose proof (send_hex_loop_round uart_accepts (length data) (b :: data) O w Hmax) as H.
  change (Z.of_nat 0) with 0 in H.
  change (length (b :: data)) with (S (length data)) at 1.
  rewrite H by (simpl; lia).
  cbv zeta. unfold _at_send. rewrite Hc. reflexivity.
Qed.

(** X12.  [at_send_hex] always comes to an end (for data of at most
    [INT_MAX] bytes), on an open as on a closed port, having made at most
    one write for every 40 bytes of data; it never calls the parser, never
    waits and leaves every field of the channel as it was. *)
Theorem at_send_hex_frame w data :
  Z.of_nat (length data) <= INT_MAX ->
  exists sent w',
    at_send_hex uart_accepts w data = Some (sent, w') /\
    priv w' = priv w /\ waits w' = waits w /\ parser_calls w' = parser_calls w /\
    (length (new_tx w w') <= length (chunks 40 data))%nat.
Proof.
  intros Hmax. destruct (open (priv w)) eqn:Ho.
  - pose proof (send_hex_loop_lines uart_accepts (length data) data O w Ho Hmax) as H.
    change (Z.of_nat 0) with 0 in H.
    unfold at_send_hex. rewrite H, drop_0 by lia. clear H.
    set (lines := map (flat_map byte_to_hex) (chunks_fuel (length data) 40 data)).
    destruct (send_lines_frame lines w) as (H1 & H2 & H3).
    destruct (send_lines_outcome uart_accepts lines w) as (k & Hk & Htx & _).
    destruct (send_lines uart_accepts lines w) as [sent w'] eqn:Es. simpl in *.
    exists sent, w'. conjs; try assumption; try reflexivity.
    rewrite (new_tx_app w w' _ Htx), length_take.
    unfold lines in Hk. rewrite length_map in Hk. unfold chunks. lia.
  - rewrite (at_send_hex_closed w data Ho Hmax).
    eexists _, w. conjs; try reflexivity.
    unfold new_tx. rewrite drop_all. simpl. lia.
Qed.

End Sends.

Lemma at_send_hex_frame_witness :
  Z.of_nat (length (replicate 100 (char_of "A"))) <= INT_MAX /\
  exists sent w',
    at_send_hex uart_takes_all open_channel (replicate 100 (char_of "A")) = Some (sent, w') /\
    priv w' = priv open_channel /\
    (length (new_tx open_channel w') <= 3)%nat.
Proof.
  assert (H : Z.of_nat (length (replicate 100 (char_of "A"))) <= INT_MAX)
    by (vm_compute; discriminate).
  split; [exact H|].
  destruct (at_send_hex_frame uart_takes_all open_channel
              (replicate 100 (char_of "A")) H)
    as (sent & w' & Hrun & Hp & _ & _ & Hn).
  exists sent, w'. split; [exact Hrun|]. split; [exact Hp | exact Hn].
Defined.

(** ** More on option probing *)

Lemma strncmp_prefix n : forall e rest,
  (n <= length e)%nat -> strncmp (e ++ rest) e n = 0.
Proof.
  induction n as [|n IH]; intros e rest Hn; [reflexivity|].
  destruct e as [|c e]; [simpl in Hn; lia|].
  cbn [strncmp app hd tl]. rewrite Z.eqb_refl.
  destruct (c mod 256 =? 0); [reflexivity|].
  apply IH. simpl in Hn. lia.
Qed.

Lemma fmt_s_length s : (length (fmt_s s) <= length s)%nat.
Proof. unfold fmt_s. rewrite length_take. lia. Qed.

Section Probing.

Context (AT_BUF_SIZE : nat) (pdMS_TO_TICKS : Z -> Z).
Context (uart_accepts : nat -> list Z -> Z) (reader : nat -> list env_event).

#[local] Abbreviation command := (at_command AT_BUF_SIZE uart_accepts reader).
#[local] Abbreviation config := (at_config AT_BUF_SIZE pdMS_TO_TICKS uart_accepts reader).
#[local] Abbreviation rounds := (config_loop AT_BUF_SIZE pdMS_TO_TICKS uart_accepts reader).

(** A command either is refused, leaving the world as it was, or has its
    line written; it cannot return the response without having written. *)
Lemma at_command_tx w text :
  (command w text = (NULL, w)) \/
  (open (priv w) = true /\ Z.of_nat (length text) < AT_COMMAND_LENGTH - 1 /\
   tx (trace (snd (command w text))) = tx (trace w) ++ [text ++ [CR]]).
Proof.
  destruct (Z_lt_le_dec (Z.of_nat (length text)) (AT_COMMAND_LENGTH - 1)) as [Hs | Hs].
  - destruct (open (priv w)) eqn:Ho.
    + right. split; [reflexivity|]. split; [exact Hs|].
      rewrite (at_command_short AT_BUF_SIZE uart_accepts reader w text Hs).
      now apply _at_command_open_effects.
    + left. now apply commands_closed.
  - left. now apply at_command_long.
Qed.

Lemma at_command_tx_count w text :
  exists sent, tx (trace (snd (command w text))) = tx (trace w) ++ sent /\
               (length sent <= 1)%nat.
Proof.
  destruct (at_command_tx w text) as [H | (_ & _ & H)].
  - rewrite H. exists []. split; [now rewrite app_nil_r | simpl; lia].
  - rewrite H. exists [text ++ [CR]]. split; [reflexivity | simpl; lia].
Qed.

(** X13.  [at_config] returns 0, -1 or -2 and nothing else, and writes at
    most two command lines for each attempt it is allowed; with no attempt
    allowed ([attempts <= 0]) it returns 0 without writing or checking
    anything. *)
Theorem at_config_bounds w option value attempts :
  let r := fst (config w option value attempts) in
  let w' := snd (config w option value attempts) in
  (r = 0 \/ r = -1 \/ r = -2) /\
  (exists sent, tx (trace w') = tx (trace w) ++ sent /\
                (length sent <= 2 * Z.to_nat attempts)%nat) /\
  (attempts <= 0 -> r = 0 /\ w' = w).
Proof.
  intros r w'. subst r w'. unfold at_config.
  split; [|split].
  - generalize (Z.to_nat attempts). intros n. revert w.
    induction n as [|n IH]; intros w; cbn [config_loop]; [now left|].
    destruct (command w _) as [[|] w1]; [now right; right|].
    cbv zeta. destruct (_ >=? 32); [now right; left|].
    destruct (strncmp _ _ _ =? 0); [now left|].
    destruct (command w1 _) as [r2 w2]. apply IH.
  - generalize (Z.to_nat attempts). intros n. revert w.
    induction n as [|n IH]; intros w; cbn [config_loop].
    { exists []. split; [now rewrite app_nil_r | simpl; lia]. }
    destruct (at_command_tx_count w (cstr "AT+" ++ fmt_s option ++ cstr "?"))
      as (s1 & H1 & L1).
    destruct (command w _) as [[|] w1]; simpl in H1.
    { exists s1. split; [exact H1 | lia]. }
    cbv zeta. destruct (_ >=? 32); [exists s1; split; [exact H1 | lia]|].
    destruct (strncmp _ _ _ =? 0); [exists s1; split; [exact H1 | lia]|].
    destruct (at_command_tx_count w1
                (cstr "AT+" ++ fmt_s option ++ cstr "=" ++ fmt_s value))
      as (s2 & H2 & L2).
    destruct (command w1 _) as [r2 w2]; simpl in H2.
    destruct (IH (vTaskDelay (pdMS_TO_TICKS 1000) w2)) as (s3 & H3 & L3).
    exists (s1 ++ s2 ++ s3). split.
    + rewrite H3. unfold vTaskDelay, emit. simpl.
      rewrite tx_app. simpl. rewrite app_nil_r, H2, H1, <- !app_assoc. reflexivity.
    + rewrite !length_app. lia.
  - intros Ha. replace (Z.to_nat attempts) with O by lia. now split.
Qed.

(** X14.  When ["+<option>: <value>"] does not fit the 32-byte buffer it
    is compared from, [at_config] cannot succeed: with at least one
    attempt allowed it returns -1 after the first probe that is answered
    (-2 if that probe gets no response), and the setting command is never
    sent. *)
Theorem at_config_expected_too_long w option value attempts :
  let expected := cstr "+" ++ fmt_s option ++ cstr ": " ++ fmt_s value in
  let probe := cstr "AT+" ++ fmt_s option ++ cstr "?" in
  let r := fst (config w option value attempts) in
  let w' := snd (config w option value attempts) in
  32 <= Z.of_nat (length expected) ->
  1 <= attempts ->
  (r = -1 \/ r = -2) /\
  (tx (trace w') = tx (trace w) \/ tx (trace w') = tx (trace w) ++ [probe ++ [CR]]) /\
  (r = -1 -> tx (trace w') = tx (trace w) ++ [probe ++ [CR]]).
Proof.
  intros expected probe r w' Hlong Hatt. unfold r, w', at_config.
  destruct (Z.to_nat attempts) as [|n] eqn:En; [lia|].
  cbn [config_loop]. fold probe.
  destruct (at_command_tx w probe) as [H | (_ & _ & H)].
  - rewrite H. simpl. conjs; [now right | now left | discriminate].
  - destruct (command w probe) as [[|] w1]; simpl in H.
    + simpl. conjs; [now right | now right | discriminate].
    + cbv zeta. fold expected.
      destruct (Z.geb_spec (Z.of_nat (length expected)) 32) as [_ | Hlt]; [|lia].
      simpl. conjs; [now left | now right | intros _; exact H].
Qed.

(** The response buffer after the answer [buf] came during wait [j]. *)
Lemma at_command_answered w text buf j :
  open (priv w) = true ->
  Z.of_nat (length text) < AT_COMMAND_LENGTH - 1 ->
  (j < slices (timeout (priv w)))%nat ->
  (forall k, (waits w <= k < waits w + j)%nat -> reader k = []) ->
  reader (waits w + j)%nat = [EnvResponse buf] ->
  exists w',
    command w text = (RESPONSE, w') /\
    response (priv w') =
      response (handle_response AT_BUF_SIZE buf (length buf) (priv w)) /\
    tx (trace w') = tx (trace w) ++ [text ++ [CR]].
Proof.
  intros Ho Hs Hj Hq Hr.
  pose proof (_at_command_open_effects AT_BUF_SIZE uart_accepts reader w
                (text ++ [CR]) Ho) as [Htx _].
  rewrite (at_command_short AT_BUF_SIZE uart_accepts reader w text Hs).
  rewrite (_at_command_open AT_BUF_SIZE uart_accepts reader w (text ++ [CR]) Ho) in *.
  rewrite (loop_delivers AT_BUF_SIZE reader j (slices (timeout (priv w)))
             (armed w (text ++ [CR])) buf) in *;
    try reflexivity; try assumption.
  unfold conclude in *. simpl in *. rewrite Ho in *. simpl in *.
  eexists. split; [reflexivity|]. simpl. split; [reflexivity | exact Htx].
Qed.

(** X15.  [at_config] compares only as many characters as the expected
    text has: when the first probe is answered in time by a response that
    begins with ["+<option>: <value>"], whatever follows, [at_config]
    returns 0 at once, having written the probe and nothing else. *)
Theorem at_config_accepts_prefix w option value attempts rest j :
  let expected := cstr "+" ++ fmt_s option ++ cstr ": " ++ fmt_s value in
  let probe := cstr "AT+" ++ fmt_s option ++ cstr "?" in
  open (priv w) = true ->
  length (response (priv w)) = AT_BUF_SIZE ->
  1 <= attempts ->
  Z.of_nat (length expected) < 32 ->
  (length expected < AT_BUF_SIZE)%nat ->
  (j < slices (timeout (priv w)))%nat ->
  (forall k, (waits w <= k < waits w + j)%nat -> reader k = []) ->
  reader (waits w + j)%nat = [EnvResponse (expected ++ rest)] ->
  exists w',
    config w option value attempts = (0, w') /\
    tx (trace w') = tx (trace w) ++ [probe ++ [CR]].
Proof.
  intros expected probe Ho Hlen Hatt Hfit Hcap Hj Hq Hr.
  assert (Hprobe : Z.of_nat (length probe) < AT_COMMAND_LENGTH - 1).
  { unfold probe, expected in *. rewrite !length_app in *.
    change (length (cstr "AT+")) with 3%nat.
    change (length (cstr "?")) with 1%nat.
    change (length (cstr "+")) with 1%nat in Hfit.
    change (length (cstr ": ")) with 2%nat in Hfit.
    change AT_COMMAND_LENGTH with 80. lia. }
  destruct (at_command_answered w probe (expected ++ rest) j Ho Hprobe Hj Hq Hr)
    as (w1 & Hrun & Hresp & Htx).
  unfold at_config. destruct (Z.to_nat attempts) as [|n] eqn:En; [lia|].
  exists w1. split; [|exact Htx].
  apply config_loop_match; [exact Hrun | exact Hfit |].
  fold expected. rewrite Hresp.
  rewrite (handle_response_layout AT_BUF_SIZE (expected ++ rest)
             (length (expected ++ rest)) (priv w)) by (auto; lia).
  set (n' := Nat.min (length (expected ++ rest)) (AT_BUF_SIZE - 1)).
  assert (Hn' : (length expected <= n')%nat).
  { unfold n'. rewrite length_app. lia. }
  rewrite take_app, (take_ge expected n') by exact Hn'.
  rewrite <- app_assoc. apply strncmp_prefix, strlen_le.
Qed.

(** X16.  On a closed port every operation fails at once and leaves the
    world as it was: the sends return false (a hexadecimal send of no
    byte excepted, which returns true) and [at_config], allowed at least
    one attempt, returns -2. *)
Theorem closed_port_fails_fast w text data option value attempts :
  open (priv w) = false ->
  Z.of_nat (length data) <= INT_MAX ->
  1 <= attempts ->
  at_send uart_accepts w text = (false, w) /\
  at_send_raw uart_accepts w data = (false, w) /\
  at_send_hex uart_accepts w data = Some (bool_decide (data = []), w) /\
  config w option value attempts = (-2, w).
Proof.
  intros Hc Hmax Hatt. conjs.
  - unfold at_send, _at_send. rewrite Hc. now destruct (_ >=? _).
  - unfold at_send_raw, _at_send. now rewrite Hc.
  - now apply at_send_hex_closed.
  - unfold at_config. destruct (Z.to_nat attempts) as [|n] eqn:En; [lia|].
    apply config_loop_no_response.
    destruct (at_command_tx w (cstr "AT+" ++ fmt_s option ++ cstr "?"))
      as [H | (Ho & _)]; [exact H | congruence].
Qed.

End Probing.

Lemma at_config_bounds_witness :
  let run := at_config 16 ticks_1kHz uart_takes_all reader_silent
               open_channel (cstr "QIMUX") (cstr "1") 0 in
  0 <= 0 /\ fst run = 0 /\ snd run = open_channel.
Proof.
  intros run. split; [lia|].
  apply (at_config_bounds 16 ticks_1kHz uart_takes_all reader_silent
           open_channel (cstr "QIMUX") (cstr "1") 0).
  lia.
Defined.

Lemma at_config_expected_too_long_witness :
  let option := cstr "A_RATHER_LONG_OPTION_NAME" in
  let value := cstr "123456" in
  let run := at_config 64 ticks_1kHz uart_takes_all
               (reader_answers (cstr "+A_RATHER_LONG_OPTION_NAME: 123456"))
               open_channel option value 5 in
  (32 <= Z.of_nat (length (cstr "+" ++ fmt_s option ++ cstr ": " ++ fmt_s value)) /\
   1 <= 5) /\
  (fst run = -1 \/ fst run = -2).
Proof.
  intros option value run.
  assert (H1 : 32 <= Z.of_nat (length (cstr "+" ++ fmt_s option ++ cstr ": " ++ fmt_s value)))
    by (vm_compute; discriminate).
  assert (H2 : 1 <= 5) by lia.
  split; [now split|].
  exact (proj1 (at_config_expected_too_long 64 ticks_1kHz uart_takes_all
                  (reader_answers (cstr "+A_RATHER_LONG_OPTION_NAME: 123456"))
                  open_channel option value 5 H1 H2)).
Defined.

Lemma at_config_accepts_prefix_witness :
  let w := open_channel in
  let reader := reader_answers (cstr "+QIMUX: 10") in
  (open (priv w) = true /\ length (response (priv w)) = 16%nat /\ 1 <= 3 /\
   reader (waits w + 0)%nat = [EnvResponse (cstr "+QIMUX: 1" ++ cstr "0")]) /\
  exists w',
    at_config 16 ticks_1kHz uart_takes_all reader w (cstr "QIMUX") (cstr "1") 3 = (0, w') /\
    tx (trace w') = tx (trace w) ++ [cstr "AT+QIMUX?" ++ [CR]].
Proof.
  intros w reader.
  assert (H1 : open (priv w) = true) by reflexivity.
  assert (H2 : length (response (priv w)) = 16%nat) by reflexivity.
  assert (H3 : 1 <= 3) by lia.
  assert (H4 : Z.of_nat (length (cstr "+" ++ fmt_s (cstr "QIMUX") ++ cstr ": "
                                   ++ fmt_s (cstr "1"))) < 32)
    by (vm_compute; reflexivity).
  assert (H5 : (length (cstr "+" ++ fmt_s (cstr "QIMUX") ++ cstr ": "
                          ++ fmt_s (cstr "1")) < 16)%nat)
    by (vm_compute; lia).
  assert (H6 : (0 < slices (timeout (priv w)))%nat) by (vm_compute; lia).
  assert (H7 : forall k, (waits w <= k < waits w + 0)%nat -> reader k = [])
    by (intros k Hk; lia).
  assert (H8 : reader (waits w + 0)%nat = [EnvResponse (cstr "+QIMUX: 1" ++ cstr "0")])
    by reflexivity.
  split; [now conjs|].
  exact (at_config_accepts_prefix 16 ticks_1kHz uart_takes_all reader w
           (cstr "QIMUX") (cstr "1") 3 (cstr "0") 0 H1 H2 H3 H4 H5 H6 H7 H8).
Defined.

Lemma closed_port_fails_fast_witness :
  let w := snd (at_close open_channel) in
  (open (priv w) = false /\ Z.of_nat (length (cstr "payload")) <= INT_MAX /\ 1 <= 10) /\
  at_send_hex uart_takes_all w (cstr "payload") = Some (false, w) /\
  at_config 16 ticks_1kHz uart_takes_all reader_silent w (cstr "QIMUX") (cstr "1") 10
  = (-2, w).
Proof.
  intros w.
  assert (H1 : open (priv w) = false) by reflexivity.
  assert (H2 : Z.of_nat (length (cstr "payload")) <= INT_MAX) by (vm_compute; discriminate).
  assert (H3 : 1 <= 10) by lia.
  split; [now conjs|].
  destruct (closed_port_fails_fast 16 ticks_1kHz uart_takes_all reader_silent w
              (cstr "AT") (cstr "payload") (cstr "QIMUX") (cstr "1") 10 H1 H2 H3)
    as (_ & _ & Hhex & Hcfg).
  split; [exact Hhex | exact Hcfg].
Defined.

(** ** The M6315 driver on top of the channel *)

Section ClientProperties.

Context (AT_BUF_SIZE : nat) (pdMS_TO_TICKS : Z -> Z).
Context (uart_accepts : nat -> list Z -> Z) (reader : nat -> list env_event).
Context (AT_RESPONSE_FINAL_OK : at_response_type) (m6315_scan_line : at_line_scanner_t).

#[local] Abbreviation command := (at_command AT_BUF_SIZE uart_accepts reader).
#[local] Abbreviation simple := (at_command_simple AT_BUF_SIZE uart_accepts reader).
#[local] Abbreviation pdp_close :=
  (m6315_pdp_close AT_BUF_SIZE uart_accepts reader AT_RESPONSE_FINAL_OK).
#[local] Abbreviation shutdown :=
  (m6315_shutdown AT_BUF_SIZE uart_accepts reader AT_RESPONSE_FINAL_OK).
#[local] Abbreviation attach :=
  (m6315_attach AT_BUF_SIZE pdMS_TO_TICKS uart_accepts reader m6315_scan_line).

Lemma at_command_simple_cases w text :
  (simple w text = (Some (-2), w)) \/
  (open (priv w) = true /\
   tx (trace (snd (simple w text))) = tx (trace w) ++ [text ++ [CR]] /\
   command_scanner (at_pub (priv (snd (simple w text)))) = None /\
   (fst (simple w text) = None \/ fst (simple w text) = Some (-1) \/
    fst (simple w text) = Some (-2))).
Proof.
  unfold at_command_simple.
  destruct (at_command_tx AT_BUF_SIZE uart_accepts reader w text)
    as [H | (Ho & Hs & H)].
  - left. now rewrite H.
  - right. split; [exact Ho|].
    assert (Hsc : command_scanner (at_pub (priv (snd (command w text)))) = None).
    { rewrite (at_command_short AT_BUF_SIZE uart_accepts reader w text Hs).
      now apply _at_command_open_effects. }
    destruct (command w text) as [[|] w1]; simpl in *.
    + conjs; auto.
    + destruct (strcmp _ _ =? 0); simpl; conjs; auto.
Qed.

(** X17.  [m6315_pdp_close] on a closed port returns -2 without writing,
    and leaves its scanner installed: the channel, reopened, still takes a
    line ["DEACT OK"] for a final response of whatever command comes next.
    On an open port the scanner is gone when the function returns. *)
Theorem m6315_pdp_close_scanner w :
  let r := fst (pdp_close w) in
  let w' := snd (pdp_close w) in
  (open (priv w) = false ->
   r = -2 /\ tx (trace w') = tx (trace w) /\
   command_scanner (at_pub (priv w')) = Some (scanner_qideact AT_RESPONSE_FINAL_OK) /\
   (AT_RESPONSE_FINAL_OK <> AT_RESPONSE_UNKNOWN ->
    forall len,
      scan_line (at_pub (priv (snd (at_open true w')))) (cstr "DEACT OK") len
      = ([CommandScanner], AT_RESPONSE_FINAL_OK))) /\
  (open (priv w) = true ->
   command_scanner (at_pub (priv w')) = None /\
   tx (trace w') = tx (trace w) ++ [cstr "AT+QIDEACT" ++ [CR]]).
Proof.
  intros r w'. subst r w'. unfold m6315_pdp_close.
  set (w0 := at_set_command_scanner (Some (scanner_qideact AT_RESPONSE_FINAL_OK))
               (at_set_timeout M6315_QIDEACT_TIMEOUT w)).
  split.
  - intros Hc.
    destruct (at_command_simple_cases w0 (cstr "AT+QIDEACT")) as [H | (Ho & _)];
      [|simpl in Ho; congruence].
    rewrite H. simpl. conjs; try reflexivity.
    intros Hne len. unfold scan_line. simpl.
    unfold scanner_qideact. simpl.
    destruct (Z.eqb_spec AT_RESPONSE_FINAL_OK 0) as [E | _]; [contradiction|].
    reflexivity.
  - intros Ho.
    destruct (at_command_simple_cases w0 (cstr "AT+QIDEACT"))
      as [H | (_ & Htx & Hsc & _)].
    + exfalso. unfold at_command_simple in H.
      pose proof (_at_command_open_effects AT_BUF_SIZE uart_accepts reader w0
                    (cstr "AT+QIDEACT" ++ [CR]) Ho) as [Ht _].
      change (at_command AT_BUF_SIZE uart_accepts reader w0 (cstr "AT+QIDEACT"))
        with (_at_command AT_BUF_SIZE uart_accepts reader w0 (cstr "AT+QIDEACT" ++ [CR])) in H.
      destruct (_at_command _ _ _ w0 _) as [[|] w1]; simpl in *.
      * inversion H; subst. apply (f_equal length) in Ht.
        rewrite length_app in Ht. simpl in Ht. lia.
      * destruct (strcmp _ _ =? 0); discriminate.
    + destruct (simple w0 (cstr "AT+QIDEACT")) as [[rr|] w1]; simpl in *; now split.
Qed.

(** X18.  [m6315_shutdown] asks for the power-down only after the modem
    has answered ["AT"] with an empty response: it returns 0, -1 or -2,
    it writes nothing, ["AT"] alone, or ["AT"] and then ["AT+QPOWD=1"],
    and a result of 0 means that both were written. *)
Theorem m6315_shutdown_steps w :
  let r := fst (shutdown w) in
  let sent := new_tx w (snd (shutdown w)) in
  (r = 0 \/ r = -1 \/ r = -2) /\
  (sent = [] \/ sent = [cstr "AT" ++ [CR]] \/
   sent = [cstr "AT" ++ [CR]; cstr "AT+QPOWD=1" ++ [CR]]) /\
  (r = 0 -> sent = [cstr "AT" ++ [CR]; cstr "AT+QPOWD=1" ++ [CR]]) /\
  (sent = [] -> r = -2).
Proof.
  intros r sent. subst r sent. unfold m6315_shutdown.
  set (w0 := at_set_timeout AT_TIMEOUT_SHORT w).
  assert (Hnil : new_tx w w0 = []).
  { apply new_tx_app. now rewrite app_nil_r. }
  destruct (at_command_simple_cases w0 (cstr "AT")) as [H | (_ & Htx & _ & Hr)].
  { rewrite H. simpl. rewrite Hnil. conjs; auto; discriminate. }
  destruct (simple w0 (cstr "AT")) as [[r1|] w1]; simpl in Htx, Hr.
  { simpl. rewrite (new_tx_app w w1 _ Htx).
    destruct Hr as [Hr | [Hr | Hr]]; inversion Hr; subst;
      conjs; auto; discriminate. }
  set (w2 := at_set_command_scanner (Some (scanner_shutdown AT_RESPONSE_FINAL_OK))
               (at_set_timeout AT_TIMEOUT_LONG w1)).
  destruct (at_command_simple_cases w2 (cstr "AT+QPOWD=1")) as [H | (_ & Htx2 & _ & Hr2)].
  { rewrite H. simpl. rewrite (new_tx_app w w2 _ Htx). conjs; auto; discriminate. }
  assert (Hboth : new_tx w (snd (simple w2 (cstr "AT+QPOWD=1")))
                  = [cstr "AT" ++ [CR]; cstr "AT+QPOWD=1" ++ [CR]]).
  { apply new_tx_app. rewrite Htx2. simpl. rewrite Htx, <- app_assoc. reflexivity. }
  destruct (simple w2 (cstr "AT+QPOWD=1")) as [[r2|] w3]; simpl in *; rewrite Hboth.
  - destruct Hr2 as [Hr2 | [Hr2 | Hr2]]; inversion Hr2; subst;
      conjs; auto; discriminate.
  - conjs; auto; discriminate.
Qed.

Lemma sends_same_tx w w' : tx (trace w') = tx (trace w) -> sends_at_most 0 w w'.
Proof. intros H. exists []. split; [now rewrite app_nil_r | simpl; lia]. Qed.

Lemma sends_trans k1 k2 k w1 w2 w3 :
  sends_at_most k1 w1 w2 -> sends_at_most k2 w2 w3 -> (k1 + k2 <= k)%nat ->
  sends_at_most k w1 w3.
Proof.
  intros (s1 & H1 & L1) (s2 & H2 & L2) Hk. exists (s1 ++ s2). split.
  - now rewrite H2, H1, app_assoc.
  - rewrite length_app. lia.
Qed.

Lemma sends_command w text : sends_at_most 1 w (snd (command w text)).
Proof. apply at_command_tx_count. Qed.

Lemma sends_delay ticks w : sends_at_most 0 w (vTaskDelay ticks w).
Proof.
  apply sends_same_tx. unfold vTaskDelay, emit. simpl.
  rewrite tx_app. simpl. now rewrite app_nil_r.
Qed.

Lemma command_closed_eq w text : open (priv w) = false -> command w text = (NULL, w).
Proof. intros Hc. now apply commands_closed. Qed.

Lemma autobaud_sends n : forall w,
  sends_at_most n w (m6315_autobaud AT_BUF_SIZE uart_accepts reader n w).
Proof.
  induction n as [|n IH]; intros w; cbn [m6315_autobaud].
  - now apply sends_same_tx.
  - pose proof (sends_command w (cstr "AT")) as H1.
    destruct (command w (cstr "AT")) as [[|] w1]; simpl in H1.
    + eapply sends_trans; [exact H1 | apply IH | lia].
    + eapply sends_trans; [exact H1 | apply (sends_same_tx w1 w1); reflexivity | lia].
Qed.

Lemma autobaud_closed n : forall w,
  open (priv w) = false -> m6315_autobaud AT_BUF_SIZE uart_accepts reader n w = w.
Proof.
  induction n as [|n IH]; intros w Hc; cbn [m6315_autobaud]; [reflexivity|].
  rewrite (command_closed_eq w (cstr "AT") Hc). now apply IH.
Qed.

Lemma cfun_sends n : forall w,
  let run := m6315_cfun AT_BUF_SIZE pdMS_TO_TICKS uart_accepts reader n w in
  (fst run = 0 \/ fst run = -2) /\ sends_at_most n w (snd run).
Proof.
  induction n as [|n IH]; intros w; cbn [m6315_cfun].
  - split; [now left | now apply sends_same_tx].
  - pose proof (sends_command w (cstr "AT+CFUN=1")) as H1.
    destruct (command w (cstr "AT+CFUN=1")) as [[|] w1]; simpl in H1.
    + split; [now right|].
      eapply sends_trans; [exact H1 | apply (sends_same_tx w1 w1); reflexivity | lia].
    + destruct (hd 0 (response (priv w1)) =? 0).
      * split; [now left|].
        eapply sends_trans; [exact H1 | apply (sends_same_tx w1 w1); reflexivity | lia].
      * destruct (IH (vTaskDelay (pdMS_TO_TICKS 1000) w1)) as [Hr Hs].
        split; [exact Hr|].
        eapply sends_trans; [exact H1 | | apply Nat.le_refl].
        eapply sends_trans; [apply sends_delay | exact Hs | lia].
Qed.

(** X19.  [m6315_attach] returns 0 or -2 and nothing else, and writes at
    most 26 command lines (10 probes, 6 settings, 10 tries to enable the
    radio).  On a closed port it writes nothing and returns -2, having
    installed the driver's callbacks and the long timeout all the same. *)
Theorem m6315_attach_bounds w :
  let r := fst (attach w) in
  let w' := snd (attach w) in
  (r = 0 \/ r = -2) /\
  sends_at_most 26 w w' /\
  (open (priv w) = false ->
   r = -2 /\ tx (trace w') = tx (trace w) /\
   cbs (at_pub (priv w')) = Some (m6315_callbacks m6315_scan_line) /\
   timeout (priv w') = AT_TIMEOUT_LONG).
Proof.
  intros r w'. subst r w'. unfold m6315_attach.
  set (w0 := at_set_timeout AT_TIMEOUT_SHORT
               (at_set_callbacks (Some (m6315_callbacks m6315_scan_line)) w)).
  change (Z.to_nat M6315_AUTOBAUD_ATTEMPTS) with 10%nat.
  change (Z.to_nat M6315_CONFIG_RETRIES) with 10%nat.
  split; [|split].
  - destruct (command _ _) as [? w1]. destruct (command w1 _) as [? w2].
    destruct (command _ _) as [? w3]. destruct (command w3 _) as [? w4].
    destruct (command w4 _) as [? w5]. destruct (command w5 _) as [? w6].
    apply cfun_sends.
  - assert (S0 : sends_at_most 0 w w0) by now apply sends_same_tx.
    pose proof (autobaud_sends 10 w0) as Sa.
    set (wa := m6315_autobaud AT_BUF_SIZE uart_accepts reader 10 w0) in *.
    pose proof (sends_command wa (cstr "ATE0")) as S1.
    destruct (command wa (cstr "ATE0")) as [? w1]. simpl in S1.
    pose proof (sends_command w1 (cstr "ATE0")) as S2.
    destruct (command w1 (cstr "ATE0")) as [? w2]. simpl in S2.
    pose proof (sends_delay (pdMS_TO_TICKS 2000) w2) as Sd.
    set (wd := vTaskDelay (pdMS_TO_TICKS 2000) w2) in *.
    pose proof (sends_command wd (cstr "AT+CGMM")) as S3.
    destruct (command wd (cstr "AT+CGMM")) as [? w3]. simpl in S3.
    pose proof (sends_command w3 (cstr "AT+CGMR")) as S4.
    destruct (command w3 (cstr "AT+CGMR")) as [? w4]. simpl in S4.
    pose proof (sends_command w4 (fmt_s (cstr "AT+CMEE=2"))) as S5.
    destruct (command w4 (fmt_s (cstr "AT+CMEE=2"))) as [? w5]. simpl in S5.
    pose proof (sends_command w5 (fmt_s (cstr "AT+QIURC=0"))) as S6.
    destruct (command w5 (fmt_s (cstr "AT+QIURC=0"))) as [? w6]. simpl in S6.
    assert (S7 : sends_at_most 0 w6 (at_set_timeout AT_TIMEOUT_LONG w6))
      by now apply sends_same_tx.
    destruct (cfun_sends 10 (at_set_timeout AT_TIMEOUT_LONG w6)) as [_ Sc].
    simpl in Sc.
    pose proof (sends_trans _ _ 10 _ _ _ S0 Sa (Nat.le_refl _)) as T1.
    pose proof (sends_trans _ _ 11 _ _ _ T1 S1 (Nat.le_refl _)) as T2.
    pose proof (sends_trans _ _ 12 _ _ _ T2 S2 (Nat.le_refl _)) as T3.
    pose proof (sends_trans _ _ 12 _ _ _ T3 Sd (Nat.le_refl _)) as T4.
    pose proof (sends_trans _ _ 13 _ _ _ T4 S3 (Nat.le_refl _)) as T5.
    pose proof (sends_trans _ _ 14 _ _ _ T5 S4 (Nat.le_refl _)) as T6.
    pose proof (sends_trans _ _ 15 _ _ _ T6 S5 (Nat.le_refl _)) as T7.
    pose proof (sends_trans _ _ 16 _ _ _ T7 S6 (Nat.le_refl _)) as T8.
    pose proof (sends_trans _ _ 16 _ _ _ T8 S7 (Nat.le_refl _)) as T9.
    exact (sends_trans _ _ 26 _ _ _ T9 Sc (Nat.le_refl _)).
  - intros Hc.
    assert (Hc0 : open (priv w0) = false) by exact Hc.
    rewrite (autobaud_closed 10 w0 Hc0).
    rewrite !(command_closed_eq w0 _ Hc0).
    set (wd := vTaskDelay (pdMS_TO_TICKS 2000) w0).
    assert (Hcd : open (priv wd) = false) by exact Hc.
    rewrite !(command_closed_eq wd _ Hcd).
    cbn [m6315_cfun].
    rewrite (command_closed_eq (at_set_timeout AT_TIMEOUT_LONG wd) _ Hcd).
    simpl. conjs; try reflexivity.
    rewrite tx_app. simpl. now rewrite app_nil_r.
Qed.

End ClientProperties.

Lemma command_keeps_settings_witness :
  let w := at_set_delay ticks_1kHz 20 open_channel in
  let w' := snd (at_command 16 uart_takes_all (fun _ => [EnvClose]) w (cstr "AT")) in
  (w' = snd (at_command_raw 16 uart_takes_all (fun _ => [EnvClose]) w (cstr "AT" ++ [CR])) \/
   w' = snd (at_command 16 uart_takes_all (fun _ => [EnvClose]) w (cstr "AT"))) /\
  timeout (priv w') = 2 /\ delay (priv w') = 21.
Proof.
  intros w w'.
  assert (H : w' = snd (at_command_raw 16 uart_takes_all (fun _ => [EnvClose]) w
                          (cstr "AT" ++ [CR])) \/
              w' = snd (at_command 16 uart_takes_all (fun _ => [EnvClose]) w (cstr "AT")))
    by (right; reflexivity).
  split; [exact H|].
  destruct (command_keeps_settings 16 uart_takes_all (fun _ => [EnvClose]) w
              (cstr "AT") (cstr "AT" ++ [CR]) w' H) as (Ht & Hd & _).
  split; [exact Ht | exact Hd].
Defined.

Lemma at_send_one_way_witness :
  let run := at_send uart_takes_all open_channel (cstr "AT+NMGS=3,") in
  fst run = true /\ new_tx open_channel (snd run) = [cstr "AT+NMGS=3,"].
Proof.
  intros run.
  assert (H : fst run = true) by (vm_compute; reflexivity).
  split; [exact H|].
  destruct (at_send_one_way uart_takes_all open_channel (cstr "AT+NMGS=3,"))
    as ((_ & _ & _ & _ & _ & Hw) & _).
  exact (Hw H).
Defined.

Lemma m6315_pdp_close_scanner_witness :
  let w := closed_channel in
  let w' := snd (m6315_pdp_close 16 uart_takes_all reader_silent 2 w) in
  (open (priv w) = false /\ 2 <> AT_RESPONSE_UNKNOWN) /\
  fst (m6315_pdp_close 16 uart_takes_all reader_silent 2 w) = -2 /\
  scan_line (at_pub (priv (snd (at_open true w')))) (cstr "DEACT OK") 8
  = ([CommandScanner], 2).
Proof.
  intros w w'.
  assert (H1 : open (priv w) = false) by reflexivity.
  assert (H2 : 2 <> AT_RESPONSE_UNKNOWN) by discriminate.
  split; [now split|].
  destruct (m6315_pdp_close_scanner 16 uart_takes_all reader_silent 2 w)
    as [Hclosed _].
  destruct (Hclosed H1) as (Hr & _ & _ & Hscan).
  split; [exact Hr | exact (Hscan H2 8%nat)].
Defined.

Lemma m6315_shutdown_steps_witness :
  let run := m6315_shutdown 16 uart_takes_all (reader_answers []) 2 open_channel in
  fst run = 0 /\
  new_tx open_channel (snd run) = [cstr "AT" ++ [CR]; cstr "AT+QPOWD=1" ++ [CR]].
Proof.
  intros run.
  assert (H : fst run = 0) by (vm_compute; reflexivity).
  split; [exact H|].
  destruct (m6315_shutdown_steps 16 uart_takes_all (reader_answers []) 2 open_channel)
    as (_ & _ & Hboth & _).
  exact (Hboth H).
Defined.

Lemma m6315_attach_bounds_witness :
  let run := m6315_attach 16 ticks_1kHz uart_takes_all reader_silent any_line
               closed_channel in
  open (priv closed_channel) = false /\
  fst run = -2 /\ timeout (priv (snd run)) = AT_TIMEOUT_LONG.
Proof.
  intros run.
  assert (H : open (priv closed_channel) = false) by reflexivity.
  split; [exact H|].
  destruct (m6315_attach_bounds 16 ticks_1kHz uart_takes_all reader_silent any_line
              closed_channel) as (_ & _ & Hclosed).
  destruct (Hclosed H) as (Hr & _ & _ & Ht).
  split; [exact Hr | exact Ht].
Defined.
